(** * react-express-docker: the message API, its client and its edge routers

    A shallow embedding of the runtime code of the repository:

    - [server/index.js]: the Express application with its single route
      [GET /api/message];
    - [client/src/App.jsx]: the React component that fetches the message once
      at mount time and displays it, or an error text;
    - [client/nginx.conf] and [client/vite.config.js]: the two edge routers
      (packaged and development) placed in front of the API.

    JavaScript values are modelled as far as this program manipulates them:
    JSON data, [undefined], [Error] objects, settled promises.  Callbacks run
    in a small state-and-exception monad over the component's world (its
    [message] state and the console). *)

From Stdlib Require Import Ascii String.
From stdpp Require Import gmap strings list pretty.

Set Default Proof Using "Type".
#[local] Set Warnings "-register-all".
Local Open Scope string_scope.

(** ** JavaScript values *)

Module JS.

(** JSON data, as produced by [JSON.parse] and consumed by
    [JSON.stringify].  Numbers are represented by integers: the program
    never computes with a number, it only passes one on or prints it.  An
    object is its list of own properties in insertion order. *)
Inductive json : Type :=
| JNull
| JBool (b : bool)
| JNum (n : Z)
| JStr (s : string)
| JArr (items : list json)
| JObj (props : list (string * json)).

(** The values that can reach the component state: a JSON value, or
    [undefined] (the result of reading a property that is absent). *)
Inductive value : Type :=
| Undefined
| Json (j : json).

Definition VStr (s : string) : value := Json (JStr s).

(** [Error] objects: the constructor name and the [message] property. *)
Record Error : Type := mkError { name : string; message : string }.

Definition new_Error (msg : string) : Error := mkError "Error" msg.
Definition new_TypeError (msg : string) : Error := mkError "TypeError" msg.

(** The outcome of a promise once it has settled. *)
Inductive settled (A : Type) : Type :=
| Fulfilled (a : A)
| Rejected (reason : Error).
Arguments Fulfilled {A} a.
Arguments Rejected {A} reason.

(** *** Property access *)

Fixpoint own_property (props : list (string * json)) (key : string)
  : option json :=
  match props with
  | [] => None
  | (k, v) :: rest =>
      if String.eqb k key then Some v else own_property rest key
  end.

Definition has_property (j : json) (key : string) : bool :=
  match j with
  | JObj props => bool_decide (is_Some (own_property props key))
  | _ => false
  end.

(** The text of the [TypeError] raised when a property of [null] is read
    (the wording is the engine's; V8's is used here). *)
Definition null_property_message (key : string) : string :=
  "Cannot read properties of null (reading '" +:+ key +:+ "')".

(** [data.key] for a value [data] obtained from JSON, where [key] is not
    the name of a built-in property of strings, numbers, booleans or
    arrays (such as [length]): reading from [null] throws, reading from an
    object finds the own property or gives [undefined], and reading from
    any other value gives [undefined]. *)
Definition get_property (data : json) (key : string) : Error + value :=
  match data with
  | JNull => inl (new_TypeError (null_property_message key))
  | JObj props =>
      match own_property props key with
      | Some v => inr (Json v)
      | None => inr Undefined
      end
  | _ => inr Undefined
  end.

(** *** Number and string conversion *)

(** [String(n)] for an integer [n]. *)
Definition Number_toString (n : Z) : string := pretty n.

(** *** [JSON.stringify] *)

Definition DQUOTE : ascii := "034"%char.
Definition BACKSLASH : ascii := "092"%char.

Definition hex_digit (n : N) : ascii :=
  match n with
  | 0 => "0" | 1 => "1" | 2 => "2" | 3 => "3" | 4 => "4" | 5 => "5"
  | 6 => "6" | 7 => "7" | 8 => "8" | 9 => "9" | 10 => "a" | 11 => "b"
  | 12 => "c" | 13 => "d" | 14 => "e" | _ => "f"
  end%N%char.

(** One character of a quoted JSON string. *)
Definition escape_char (c : ascii) : string :=
  let n := N_of_ascii c in
  if Ascii.eqb c DQUOTE then String BACKSLASH (String DQUOTE "")
  else if Ascii.eqb c BACKSLASH then String BACKSLASH (String BACKSLASH "")
  else if (n =? 8)%N then String BACKSLASH "b"
  else if (n =? 9)%N then String BACKSLASH "t"
  else if (n =? 10)%N then String BACKSLASH "n"
  else if (n =? 12)%N then String BACKSLASH "f"
  else if (n =? 13)%N then String BACKSLASH "r"
  else if (n <? 32)%N then
    String BACKSLASH
      (String "u" (String "0" (String "0"
         (String (hex_digit (n / 16)) (String (hex_digit (n mod 16)) "")))))
  else String c "".

Fixpoint escape (s : string) : string :=
  match s with
  | EmptyString => ""
  | String c rest => escape_char c +:+ escape rest
  end.

Definition quote (s : string) : string :=
  String DQUOTE (escape s +:+ String DQUOTE "").

Definition join_comma (parts : list string) : string :=
  match parts with
  | [] => ""
  | p :: ps => fold_left (fun acc q => acc +:+ "," +:+ q) ps p
  end.

Fixpoint stringify (j : json) : string :=
  match j with
  | JNull => "null"
  | JBool true => "true"
  | JBool false => "false"
  | JNum n => Number_toString n
  | JStr s => quote s
  | JArr items => "[" +:+ join_comma (map stringify items) +:+ "]"
  | JObj props =>
      "{" +:+
      join_comma (map (fun kv => quote (fst kv) +:+ ":" +:+ stringify (snd kv))
                      props)
      +:+ "}"
  end.

(** *** Running callbacks *)

(** How the body of a function completes: it returns, or it throws. *)
Inductive completion (A : Type) : Type :=
| Return (a : A)
| Throw (e : Error).
Arguments Return {A} a.
Arguments Throw {A} e.

Section Callbacks.
(** [W] is the world a callback may change. *)
Context {W : Type}.

Definition M (A : Type) : Type := W -> completion A * W.

Definition ret {A} (a : A) : M A := fun w => (Return a, w).
Definition throw {A} (e : Error) : M A := fun w => (Throw e, w).
Definition bind {A B} (m : M A) (k : A -> M B) : M B :=
  fun w =>
    match m w with
    | (Return a, w') => k a w'
    | (Throw e, w') => (Throw e, w')
    end.
Definition modify (f : W -> W) : M () := fun w => (Return (), f w).

(** [p.then(onFulfilled)] where the callback returns a promise (or a
    plain value, wrapped as a fulfilled one): a rejected [p] skips the
    callback; a callback that throws rejects the result; a callback that
    returns a promise hands its settlement on. *)
Definition promise_then {A B} (p : settled A)
           (onFulfilled : A -> M (settled B)) : W -> settled B * W :=
  fun w =>
    match p with
    | Rejected e => (Rejected e, w)
    | Fulfilled a =>
        match onFulfilled a w with
        | (Return q, w') => (q, w')
        | (Throw e, w') => (Rejected e, w')
        end
    end.

(** [p.catch(onRejected)]: a fulfilled [p] skips the callback. *)
Definition promise_catch {A} (p : settled A)
           (onRejected : Error -> M (settled A)) : W -> settled A * W :=
  fun w =>
    match p with
    | Fulfilled a => (Fulfilled a, w)
    | Rejected e =>
        match onRejected e w with
        | (Return q, w') => (q, w')
        | (Throw e', w') => (Rejected e', w')
        end
    end.
End Callbacks.
Arguments M : clear implicits.

End JS.

(** ** HTTP messages *)

Module HTTP.

(** Header names are kept in lower case, as Node.js presents them. *)
Record request : Type := mkRequest {
  method : string;
  path : string;          (* the normalised path of the request target *)
  query : string;         (* the query string, without the question mark *)
  headers : gmap string string;
  body : string
}.

Record response : Type := mkResponse {
  status : N;
  resp_headers : gmap string string;
  resp_body : string
}.

Definition content_type (r : response) : option string :=
  resp_headers r !! "content-type".

End HTTP.

(** ** Entity tags *)

Module Digest.

(** *** SHA-1 on bytes, with words of 32 bits kept in [N] *)

Definition word (x : N) : N := N.land x 4294967295.

Definition add32 (a b : N) : N := word (a + b).

Definition rotl (n x : N) : N :=
  word (N.lor (N.shiftl x n) (N.shiftr x (32 - n))).

Definition not32 (x : N) : N := N.lxor x 4294967295.

Definition bytes_of (s : string) : list N :=
  map N_of_ascii (list_ascii_of_string s).

(** The big-endian bytes of a number, [k] of them. *)
Fixpoint big_endian (k : nat) (n : N) : list N :=
  match k with
  | O => []
  | S k' => N.land (N.shiftr n (8 * N.of_nat k')) 255 :: big_endian k' n
  end.

(** The message followed by the byte 128, zeros up to 56 modulo 64, and
    the length in bits on 8 bytes. *)
Definition pad (msg : list N) : list N :=
  let len := length msg in
  let zeros := ((64 - (len + 9) mod 64) mod 64)%nat in
  (msg ++ [128%N] ++ repeat 0%N zeros ++ big_endian 8 (8 * N.of_nat len))%list.

Fixpoint words_of (fuel : nat) (bs : list N) : list N :=
  match fuel, bs with
  | S f, b0 :: b1 :: b2 :: b3 :: rest =>
      (N.shiftl b0 24 + N.shiftl b1 16 + N.shiftl b2 8 + b3)%N :: words_of f rest
  | _, _ => []
  end.

Fixpoint blocks_of (fuel : nat) (ws : list N) : list (list N) :=
  match fuel, ws with
  | O, _ | _, [] => []
  | S f, _ => take 16 ws :: blocks_of f (drop 16 ws)
  end.

(** The 80 words of the message schedule of one block. *)
Fixpoint schedule (more : nat) (w : list N) : list N :=
  match more with
  | O => w
  | S m =>
      let t := length w in
      let at_ i := nth (t - i) w 0%N in
      schedule m
        (w ++ [rotl 1 (N.lxor (N.lxor (at_ 3%nat) (at_ 8%nat))
                              (N.lxor (at_ 14%nat) (at_ 16%nat)))])%list
  end.

Record registers : Type := mkRegisters { ra : N; rb : N; rc : N; rd : N; re : N }.

Definition round (t : nat) (w : N) (r : registers) : registers :=
  let '(f, k) :=
    if (t <? 20)%nat then
      (N.lor (N.land (rb r) (rc r)) (N.land (not32 (rb r)) (rd r)), 1518500249%N)
    else if (t <? 40)%nat then
      (N.lxor (N.lxor (rb r) (rc r)) (rd r), 1859775393%N)
    else if (t <? 60)%nat then
      (N.lor (N.lor (N.land (rb r) (rc r)) (N.land (rb r) (rd r)))
             (N.land (rc r) (rd r)), 2400959708%N)
    else
      (N.lxor (N.lxor (rb r) (rc r)) (rd r), 3395469782%N) in
  let temp := add32 (add32 (add32 (add32 (rotl 5 (ra r)) f) (re r)) k) w in
  {| ra := temp; rb := ra r; rc := rotl 30 (rb r); rd := rc r; re := rd r |}.

Fixpoint rounds (t : nat) (ws : list N) (r : registers) : registers :=
  match ws with
  | [] => r
  | w :: rest => rounds (S t) rest (round t w r)
  end.

Definition compress (h : registers) (block : list N) : registers :=
  let r := rounds 0 (schedule 64 block) h in
  {| ra := add32 (ra h) (ra r); rb := add32 (rb h) (rb r);
     rc := add32 (rc h) (rc r); rd := add32 (rd h) (rd r);
     re := add32 (re h) (re r) |}.

Definition initial : registers :=
  {| ra := 1732584193; rb := 4023233417; rc := 2562383102;
     rd := 271733878; re := 3285377520 |}.

(** The 20 bytes of the SHA-1 digest. *)
Definition sha1 (s : string) : list N :=
  let bs := pad (bytes_of s) in
  let ws := words_of (length bs) bs in
  let h := foldl compress initial (blocks_of (length ws) ws) in
  (big_endian 4 (ra h) ++ big_endian 4 (rb h) ++ big_endian 4 (rc h)
   ++ big_endian 4 (rd h) ++ big_endian 4 (re h))%list.

(** *** Base64 *)

Definition base64_char (n : N) : ascii :=
  if (n <? 26)%N then ascii_of_N (65 + n)
  else if (n <? 52)%N then ascii_of_N (97 + (n - 26))
  else if (n <? 62)%N then ascii_of_N (48 + (n - 52))
  else if (n =? 62)%N then "+"%char
  else "/"%char.

Fixpoint base64 (bs : list N) : string :=
  match bs with
  | [] => ""
  | [a] =>
      String (base64_char (N.shiftr a 2))
        (String (base64_char (N.land (N.shiftl a 4) 63)) "==")
  | [a; b] =>
      String (base64_char (N.shiftr a 2))
        (String (base64_char (N.land (N.lor (N.shiftl a 4) (N.shiftr b 4)) 63))
           (String (base64_char (N.land (N.shiftl b 2) 63)) "="))
  | a :: b :: c :: rest =>
      String (base64_char (N.shiftr a 2))
        (String (base64_char (N.land (N.lor (N.shiftl a 4) (N.shiftr b 4)) 63))
           (String (base64_char (N.land (N.lor (N.shiftl b 2) (N.shiftr c 6)) 63))
              (String (base64_char (N.land c 63)) (base64 rest))))
  end.

(** *** Hexadecimal *)

Definition hex_char (n : N) : ascii :=
  if (n <? 10)%N then ascii_of_N (48 + n) else ascii_of_N (87 + n).

Fixpoint hex_digits (fuel : nat) (n : N) (acc : string) : string :=
  match fuel with
  | O => acc
  | S f =>
      let acc' := String (hex_char (n mod 16)) acc in
      if (n <? 16)%N then acc' else hex_digits f (n / 16) acc'
  end.

(** [n.toString(16)] *)
Definition hex (n : N) : string := hex_digits (S (N.to_nat (N.log2 n))) n "".

Definition take_string (k : nat) (s : string) : string := String.substring 0 k s.

End Digest.

(** ** The API service ([server/index.js]) *)

Module Server.
Import JS HTTP Digest.

(** The response object [res] handed to a route: the status code (200
    until changed), the headers set so far, and the body once sent. *)
Record ServerResponse : Type := mkRes {
  statusCode : N;
  res_headers : gmap string string;
  sent : option string
}.

Definition fresh_res : ServerResponse :=
  {| statusCode := 200; res_headers := ∅; sent := None |}.

(** *** What the framework's libraries compute

    Three functions of the libraries are consulted only in cases that the
    application does not reach on its own route, and are taken as they
    are: [setCharset], which rewrites a [Content-Type] that was set
    before the handler ([None] when the value is not a media type and the
    call throws); [not_after], which compares two HTTP dates; and
    [body_refused], the verdict of [express.json()] on a request that has a
    body (wrong charset, too long, not JSON). *)
Record framework : Type := mkFramework {
  setCharset : string -> option string;
  not_after : string -> string -> bool;
  body_refused : request -> bool
}.

(** A framework for the requests on which none of the three is consulted. *)
Definition plain_framework : framework :=
  {| setCharset := fun ct => Some ct;
     not_after := fun _ _ => false;
     body_refused := fun _ => false |}.

(** *** Header values as JavaScript reads them *)

(** A header that is absent or empty counts as not there. *)
Definition header_value (hs : gmap string string) (k : string) : option string :=
  match hs !! k with
  | Some EmptyString => None
  | o => o
  end.

Definition lower_char (c : ascii) : ascii :=
  let n := N_of_ascii c in
  if (65 <=? n)%N && (n <=? 90)%N then ascii_of_N (n + 32) else c.

Fixpoint to_lower (s : string) : string :=
  match s with
  | EmptyString => EmptyString
  | String c rest => String (lower_char c) (to_lower rest)
  end.

(** The items of a comma-separated header value, without the spaces
    around them ([tok] is the item read so far, [pend] the spaces seen
    after it). *)
Fixpoint token_list (s tok pend : string) : list string :=
  match s with
  | EmptyString => [tok]
  | String c rest =>
      if Ascii.eqb c " " then
        match tok with
        | EmptyString => token_list rest "" ""
        | _ => token_list rest tok (pend +:+ " ")
        end
      else if Ascii.eqb c "," then tok :: token_list rest "" ""
      else token_list rest (tok +:+ pend +:+ String c "") ""
  end.

Definition is_space (c : ascii) : bool :=
  let n := N_of_ascii c in
  ((9 <=? n) && (n <=? 13) || (n =? 32) || (n =? 160))%N.

Fixpoint drop_spaces (s : string) : string :=
  match s with
  | String c rest => if is_space c then drop_spaces rest else s
  | EmptyString => EmptyString
  end.

(** The text between commas, spaces kept. *)
Fixpoint segments (s cur : string) : list string :=
  match s with
  | EmptyString => [cur]
  | String c rest =>
      if Ascii.eqb c "," then cur :: segments rest ""
      else segments rest (cur +:+ String c "")
  end.

Definition trim_spaces (s : string) : string :=
  String.rev (drop_spaces (String.rev (drop_spaces s))).

(** Whether a [Cache-Control] value has the directive [no-cache] as one of
    its items. *)
Definition has_no_cache (v : string) : bool :=
  existsb (fun seg => String.eqb (trim_spaces seg) "no-cache") (segments v "").

(** *** Entity tags and freshness *)

(** The weak entity tag of a body: its length in hexadecimal and the
    first 27 characters of the Base64 form of its SHA-1 digest. *)
Definition etag (body : string) : string :=
  "W/" +:+ String DQUOTE
    (hex (N.of_nat (String.length body)) +:+ "-"
     +:+ take_string 27 (base64 (sha1 body)) +:+ String DQUOTE "").

(** Whether the caller's copy is still good: the request is conditional,
    does not ask for a reload, and its validators agree with the response's
    [ETag] and [Last-Modified]. *)
Definition fresh (fw : framework) (rh : gmap string string)
           (tag last_modified : option string) : bool :=
  let modified_since := header_value rh "if-modified-since" in
  let none_match := header_value rh "if-none-match" in
  match modified_since, none_match with
  | None, None => false
  | _, _ =>
      if match header_value rh "cache-control" with
         | Some cc => has_no_cache cc
         | None => false
         end
      then false
      else if match none_match with
              | Some nm =>
                  negb (String.eqb nm "*")
                  && match tag with
                     | Some (String _ _ as e) =>
                         negb (existsb
                                 (fun m => String.eqb m e
                                           || String.eqb m ("W/" +:+ e)
                                           || String.eqb ("W/" +:+ m) e)
                                 (token_list nm "" ""))
                     | _ => true
                     end
              | None => false
              end
      then false
      else if match modified_since with
              | Some ms =>
                  match last_modified with
                  | Some (String _ _ as lm) => negb (not_after fw lm ms)
                  | _ => true
                  end
              | None => false
              end
      then false
      else true
  end.

Definition get_or_head (m : string) : bool :=
  String.eqb m "GET" || String.eqb m "HEAD".

(** [req.fresh], read while the response has status [st] and headers [hs]. *)
Definition req_fresh (fw : framework) (req : request) (st : N)
           (hs : gmap string string) : bool :=
  get_or_head (method req)
  && ((200 <=? st)%N && (st <? 300)%N || (st =? 304)%N)
  && fresh fw (headers req) (hs !! "etag") (hs !! "last-modified").

(** *** [res.json] *)

(** The headers [res.send] puts on a textual body: the content type with
    its charset, the length in bytes, and an entity tag unless one is
    there. *)
Definition send_headers (hs : gmap string string) (ct body : string)
  : gmap string string :=
  let hs1 := <["content-length" := pretty (String.length body)]>
               (<["content-type" := ct]> hs) in
  match header_value hs1 "etag" with
  | Some _ => hs1
  | None => <["etag" := etag body]> hs1
  end.

(** The end of [res.send]: a fresh request turns the status into 304; a
    204 or 304 answer loses its content headers and its body; a 205 answer
    has length 0 and no body; a [HEAD] request gets no body. *)
Definition finish (fw : framework) (req : request) (st : N)
           (hs : gmap string string) (body : string) : ServerResponse :=
  let st1 := if req_fresh fw req st hs then 304%N else st in
  let bare := (st1 =? 204)%N || (st1 =? 304)%N in
  let hs1 := if bare
             then delete "transfer-encoding"
                    (delete "content-length" (delete "content-type" hs))
             else hs in
  let body1 := if bare then "" else body in
  let reset := (st1 =? 205)%N in
  let hs2 := if reset
             then delete "transfer-encoding" (<["content-length" := "0"]> hs1)
             else hs1 in
  let body2 := if reset then "" else body1 in
  {| statusCode := st1; res_headers := hs2;
     sent := Some (if String.eqb (method req) "HEAD" then "" else body2) |}.

(** [res.json(obj)]: the body is [JSON.stringify(obj)]; the content type
    is JSON unless one is already set, which is then given the charset. *)
Definition res_json (fw : framework) (req : request) (res : ServerResponse)
           (obj : json) : completion ServerResponse :=
  let body := stringify obj in
  match match header_value (res_headers res) "content-type" with
        | None => Some "application/json; charset=utf-8"
        | Some ct => setCharset fw ct
        end with
  | None => Throw (new_TypeError "invalid media type")
  | Some ct =>
      Return (finish fw req (statusCode res)
                (send_headers (res_headers res) ct body) body)
  end.

(** The object literal [{ message: "Hello from chaicode server" }]. *)
Definition greeting : string := "Hello from chaicode server".
Definition payload : json := JObj [("message", JStr greeting)].

(** [(req, res) => { res.json({ message: ... }); }] *)
Definition message_handler (fw : framework) (req : request)
           (res : ServerResponse) : completion ServerResponse :=
  res_json fw req res payload.

(** *** Routing *)

(** A route registered with [app.get], for a path without pattern
    characters. *)
Record route : Type := mkRoute {
  route_method : string;
  route_path : string;
  route_handler : framework -> request -> ServerResponse -> completion ServerResponse
}.

Definition app_get (p : string)
           (h : framework -> request -> ServerResponse -> completion ServerResponse)
  : route :=
  mkRoute "GET" p h.

(** [app.get("/api/message", ...)] is the only route. *)
Definition routes : list route := [app_get "/api/message" message_handler].

(** Methods are compared in lower case; a route for [GET] also takes
    [HEAD]. *)
Definition method_matches (rt : route) (m : string) : bool :=
  String.eqb (to_lower (route_method rt)) (to_lower m)
  || String.eqb (to_lower (route_method rt)) "get"
     && String.eqb (to_lower m) "head".

(** Letter case does not matter, and one slash may follow the path. *)
Definition path_matches (rt : route) (p : string) : bool :=
  String.eqb (to_lower p) (to_lower (route_path rt))
  || String.eqb (to_lower p) (to_lower (route_path rt) +:+ "/").

Definition route_matches (rt : route) (req : request) : bool :=
  method_matches rt (method req) && path_matches rt (path req).

(** The ways a request ends without an answer of the route: the answers
    are then made by the libraries and the framework, which are not code
    of this repository. *)
Inductive ending : Type :=
| BodyRefused     (* [express.json()] hands an error to the framework *)
| Preflight       (* [cors()] answers an [OPTIONS] request by itself *)
| NotFound        (* no route takes the request *)
| Threw.          (* the handler threw *)

Inductive outcome : Type :=
| Answered (res : ServerResponse)
| Stopped (e : ending).

(** The first route that matches handles the request. *)
Fixpoint dispatch (fw : framework) (rts : list route) (req : request)
         (res : ServerResponse) : outcome :=
  match rts with
  | [] => Stopped NotFound
  | rt :: rest =>
      if route_matches rt req then
        match route_handler rt fw req res with
        | Return r => Answered r
        | Throw _ => Stopped Threw
        end
      else dispatch fw rest req res
  end.

(** *** The middlewares *)

Inductive passed : Type :=
| Next (req : request) (res : ServerResponse)
| Ended (e : ending).

Definition middleware : Type := request -> ServerResponse -> passed.

(** The framework marks every response before the middlewares run. *)
Definition express_init (res : ServerResponse) : ServerResponse :=
  {| statusCode := statusCode res;
     res_headers := <["x-powered-by" := "Express"]> (res_headers res);
     sent := sent res |}.

(** A request has a body when it announces one. *)
Definition has_body (req : request) : bool :=
  bool_decide (is_Some (headers req !! "transfer-encoding"))
  || bool_decide (is_Some (headers req !! "content-length")).

(** [express.json()]: a request without a body passes; one with a body
    passes unless the body is refused. *)
Definition express_json (fw : framework) : middleware :=
  fun req res =>
    if has_body req && body_refused fw req then Ended BodyRefused
    else Next req res.

(** [cors()] with its default options: an [OPTIONS] request is answered on
    the spot; any other gets [Access-Control-Allow-Origin: *] and passes. *)
Definition cors : middleware :=
  fun req res =>
    if String.eqb (to_lower (method req)) "options" then Ended Preflight
    else Next req
           {| statusCode := statusCode res;
              res_headers :=
                <["access-control-allow-origin" := "*"]> (res_headers res);
              sent := sent res |}.

(** [app.use(express.json()); app.use(cors()); app.get(...)] *)
Definition app (fw : framework) (req : request) : outcome :=
  match express_json fw req (express_init fresh_res) with
  | Ended e => Stopped e
  | Next req1 res1 =>
      match cors req1 res1 with
      | Ended e => Stopped e
      | Next req2 res2 => dispatch fw routes req2 res2
      end
  end.

(** What goes on the wire once the body has been sent. *)
Definition to_response (res : ServerResponse) : option response :=
  match sent res with
  | Some b => Some (mkResponse (statusCode res) (res_headers res) b)
  | None => None
  end.

(** The answer of the application as a response, when the route made it. *)
Definition serve (fw : framework) (req : request) : option response :=
  match app fw req with
  | Answered res => to_response res
  | Stopped _ => None
  end.

(** *** The payload on the wire *)

(** The bytes of the payload, written out: an opening brace, the key
    [message] in double quotes, a colon, the greeting in double quotes, a
    closing brace. *)
Definition payload_text : string :=
  String "{" (String DQUOTE ("message" +:+ String DQUOTE (String ":" (String DQUOTE
    ("Hello from chaicode server" +:+ String DQUOTE "}"))))).

(** Its entity tag, written out. *)
Definition payload_etag : string :=
  "W/" +:+ String DQUOTE ("28-sX62H/KuZvaxJBZ+YEtCYOg8AzU" +:+ String DQUOTE "").

(** The headers of the route's answer to a request that is not fresh. *)
Definition payload_headers : gmap string string :=
  <["etag" := payload_etag]>
    (<["content-length" := "40"]>
       (<["content-type" := "application/json; charset=utf-8"]>
          (<["access-control-allow-origin" := "*"]>
             (<["x-powered-by" := "Express"]> ∅)))).

(** The response object as the handler gets it. *)
Definition at_handler : ServerResponse :=
  {| statusCode := 200;
     res_headers := <["access-control-allow-origin" := "*"]>
                      (<["x-powered-by" := "Express"]> ∅);
     sent := None |}.

(** The headers of the 304 answer. *)
Definition not_modified_headers : gmap string string :=
  delete "transfer-encoding"
    (delete "content-length" (delete "content-type" payload_headers)).

(** A [HEAD] request in another letter case, with a final slash. *)
Definition head_request : request :=
  mkRequest "HEAD" "/API/Message/" "" ∅ "".

(** The paths the route takes. *)
Definition is_api_path (p : string) : bool :=
  String.eqb (to_lower p) "/api/message"
  || String.eqb (to_lower p) "/api/message/".

(** Whether the caller's copy of the payload is still good. *)
Definition payload_fresh (fw : framework) (req : request) : bool :=
  fresh fw (headers req) (Some payload_etag) None.

(** A [GET] request for the API path, whatever else it carries. *)
Definition get_message_request (q : string) (hs : gmap string string)
           (b : string) : request :=
  mkRequest "GET" "/api/message" q hs b.

(** Two unconditional [GET] requests for the API path that differ in
    query and headers. *)
Definition sample_get : request :=
  get_message_request "verbose=1" {["accept" := "*/*"]} "".

(** A [GET] for the API path that holds for any entity tag. *)
Definition conditional_get : request :=
  get_message_request "" {["if-none-match" := "*"]} "".

End Server.

(** ** The presentation client ([client/src/App.jsx]) *)

Module Client.
Import JS.

(** The [Response] that [fetch] resolves to, as far as the component looks
    at it: [res.ok], [res.status], and the promise [res.json()] gives,
    taken at its settlement (the parsed body, or the parser's error). *)
Record Response : Type := mkResponse {
  ok : bool;
  status : N;
  json : settled JS.json
}.

(** [res.ok] is true for the status codes 200 to 299. *)
Definition status_ok (st : N) : bool := (200 <=? st)%N && (st <=? 299)%N.

(** A response as the network layer builds it. *)
Definition Response_of (st : N) (parsed : settled JS.json) : Response :=
  mkResponse (status_ok st) st parsed.

(** The two places where [setMessage] is called: in the second [.then]
    callback, with [data.message], and in the [.catch] callback, with the
    error text. *)
Inductive update : Type :=
| ThenUpdate (v : value)
| CatchUpdate (s : string).

Definition update_value (u : update) : value :=
  match u with
  | ThenUpdate v => v
  | CatchUpdate s => VStr s
  end.

(** What the callbacks can change: the [message] state of the component
    and the console.  [updates] records the calls of [setMessage] in
    order. *)
Record world : Type := mkWorld {
  message : value;
  updates : list update;
  console : list (string * Error)
}.

Definition setMessage (u : update) : M world () :=
  modify (fun w =>
    {| message := update_value u;
       updates := (updates w ++ [u])%list;
       console := console w |}).

Definition console_error (label : string) (err : Error) : M world () :=
  modify (fun w =>
    {| message := message w;
       updates := updates w;
       console := (console w ++ [(label, err)])%list |}).

(** [(res) => { if (!res.ok) throw new Error(...); return res.json(); }] *)
Definition on_response (res : Response) : M world (settled JS.json) :=
  if negb (ok res)
  then throw (new_Error ("HTTP error! status: " +:+ pretty (status res)))
  else ret (json res).

(** [(data) => { setMessage(data.message); }] *)
Definition on_data (data : JS.json) : M world (settled ()) :=
  match get_property data "message" with
  | inl e => throw e
  | inr v => bind (setMessage (ThenUpdate v)) (fun _ => ret (Fulfilled ()))
  end.

(** [(err) => { console.error(...); setMessage("Failed ..." + err.message); }] *)
Definition on_error (err : Error) : M world (settled ()) :=
  bind (console_error "Error fetching message:" err) (fun _ =>
  bind (setMessage
          (CatchUpdate ("Failed to fetch message: " +:+ JS.message err)))
       (fun _ => ret (Fulfilled ()))).

(** [fetch("/api/message").then(...).then(...).catch(...)], run once the
    promise of [fetch] has settled with [outcome]. *)
Definition fetch_chain (outcome : settled Response)
  : world -> settled () * world :=
  fun w =>
    let '(p1, w1) := promise_then outcome on_response w in
    let '(p2, w2) := promise_then p1 on_data w1 in
    promise_catch p2 on_error w2.

(** *** Display State *)

Inductive DisplayState : Type :=
| Pending
| Loaded (text : value)
| Failed (text : string).

Definition display_state (w : world) : DisplayState :=
  match last (updates w) with
  | None => Pending
  | Some (ThenUpdate v) => Loaded v
  | Some (CatchUpdate s) => Failed s
  end.

Definition is_terminal (d : DisplayState) : bool :=
  match d with Pending => false | _ => true end.

(** *** The component instance over time *)

(** One mounted instance of [App]: its hook state, whether the effect of
    [useEffect(..., [])] has run, how many requests it has issued, and how
    many of them have not settled yet. *)
Record instance : Type := mkInstance {
  hooks : world;
  effect_ran : bool;
  issued : nat;
  in_flight : nat
}.

(** The first render: [useState("loading...")]. *)
Definition mount : instance :=
  {| hooks := {| message := VStr "loading..."; updates := []; console := [] |};
     effect_ran := false; issued := 0; in_flight := 0 |}.

Inductive event : Type :=
| RunEffect                         (* the effect runs after the first commit *)
| Rerender                          (* the component function runs again *)
| Settle (outcome : settled Response). (* the promise of [fetch] settles *)

(** [None]: the event cannot happen in that state.  With the dependency
    array [[]] the effect runs once; a later render keeps the state that
    [useState] holds and does not run the effect again. *)
Definition step (c : instance) (ev : event) : option instance :=
  match ev with
  | RunEffect =>
      if effect_ran c then None
      else Some {| hooks := hooks c; effect_ran := true;
                   issued := S (issued c); in_flight := S (in_flight c) |}
  | Rerender => Some c
  | Settle outcome =>
      match in_flight c with
      | O => None
      | S n => Some {| hooks := snd (fetch_chain outcome (hooks c));
                       effect_ran := effect_ran c;
                       issued := issued c; in_flight := n |}
      end
  end.

Fixpoint run (c : instance) (evs : list event) : option instance :=
  match evs with
  | [] => Some c
  | ev :: rest =>
      match step c ev with
      | Some c' => run c' rest
      | None => None
      end
  end.

Definition reachable (c : instance) : Prop :=
  exists evs, run mount evs = Some c.

Definition is_settle (ev : event) : bool :=
  match ev with Settle _ => true | _ => false end.

(** The instance right after the effect has issued the request. *)
Definition fetching : instance :=
  {| hooks := hooks mount; effect_ran := true; issued := 1; in_flight := 1 |}.

(** The Display State once the one request has settled with [outcome]. *)
Definition display_after (outcome : settled Response) : DisplayState :=
  display_state (snd (fetch_chain outcome (hooks fetching))).

Definition message_after (outcome : settled Response) : value :=
  message (snd (fetch_chain outcome (hooks fetching))).

(** *** Rendering *)

Inductive node : Type :=
| Text (s : string)
| Elem (tag : string) (children : list node).

Definition all_or_none {A} (parts : list (option (list A))) : option (list A) :=
  foldr (fun p acc =>
           match p, acc with
           | Some xs, Some ys => Some (xs ++ ys)%list
           | _, _ => None
           end) (Some []) parts.

(** A JSX child [{v}]: a string or a number is rendered as text; [null]
    and booleans render nothing; an array renders its items; a plain
    object is refused by React ([None]). *)
Fixpoint children_of_json (j : JS.json) : option (list node) :=
  match j with
  | JNull | JBool _ => Some []
  | JNum n => Some [Text (Number_toString n)]
  | JStr s => Some [Text s]
  | JArr items => all_or_none (map children_of_json items)
  | JObj _ => None
  end.

Definition children_of (v : value) : option (list node) :=
  match v with
  | Undefined => Some []
  | Json j => children_of_json j
  end.

(** The JSX returned by [App] for the current [message]. *)
Definition App_render (msg : value) : option node :=
  match children_of msg with
  | Some kids =>
      Some (Elem "div"
              [Elem "h1" [Text "Full-stack Deploy Demo"];
               Elem "p" [Text "Message from backend: "; Elem "strong" kids]])
  | None => None
  end.

Definition view (c : instance) : option node := App_render (message (hooks c)).

Fixpoint text_content (n : node) : string :=
  match n with
  | Text s => s
  | Elem _ kids => foldr (fun k acc => text_content k +:+ acc) "" kids
  end.

(** The text shown inside the [<strong>] element. *)
Definition shown (msg : value) : option string :=
  match children_of msg with
  | Some kids => Some (text_content (Elem "strong" kids))
  | None => None
  end.

(** *** The update a settlement leads to *)

(** The text the [.catch] callback displays for an error. *)
Definition failure_text (e : Error) : string :=
  "Failed to fetch message: " +:+ JS.message e.

(** The one call of [setMessage] that a settlement leads to. *)
Definition outcome_update (o : settled Response) : update :=
  match o with
  | Rejected e => CatchUpdate (failure_text e)
  | Fulfilled res =>
      if ok res then
        match json res with
        | Rejected e => CatchUpdate (failure_text e)
        | Fulfilled data =>
            match get_property data "message" with
            | inl e => CatchUpdate (failure_text e)
            | inr v => ThenUpdate v
            end
        end
      else
        CatchUpdate
          (failure_text
             (new_Error ("HTTP error! status: " +:+ pretty (status res))))
  end.

(** *** Simulated responses *)

Definition hello_response : Response :=
  Response_of 200 (Fulfilled Server.payload).
Definition empty_object_response : Response :=
  Response_of 200 (Fulfilled (JObj [])).
Definition null_response : Response :=
  Response_of 200 (Fulfilled JNull).
Definition placeholder_response : Response :=
  Response_of 200 (Fulfilled (JObj [("message", JStr "loading...")])).
Definition connection_refused : Error := new_TypeError "Failed to fetch".

(** The instance after the effect ran and the request was answered with
    the server's payload, and one more render. *)
Definition loaded_instance : instance :=
  {| hooks := snd (fetch_chain (Fulfilled hello_response) (hooks fetching));
     effect_ran := true; issued := 1; in_flight := 0 |}.

(** The instance once the one request has settled with [outcome]. *)
Definition settled_instance (outcome : settled Response) : instance :=
  {| hooks := snd (fetch_chain outcome (hooks fetching));
     effect_ran := true; issued := 1; in_flight := 0 |}.

(** *** The lifecycle invariant *)

(** Before the effect nothing has been requested; after it exactly one
    request has been issued, and it is either still in flight with no
    [setMessage] call yet, or settled with exactly one. *)
Definition lifecycle_inv (c : instance) : Prop :=
  (effect_ran c = false /\ issued c = 0 /\ in_flight c = 0
   /\ updates (hooks c) = [])
  \/ (effect_ran c = true /\ issued c = 1 /\ in_flight c = 1
      /\ updates (hooks c) = [])
  \/ (effect_ran c = true /\ issued c = 1 /\ in_flight c = 0
      /\ exists u, updates (hooks c) = [u]).

End Client.

(** ** Headers that a proxy manages by itself *)

Module Headers.

(** The headers that describe one connection rather than the request
    (a proxy sets them anew for the connection it opens). *)
Definition hop_by_hop : list string :=
  ["connection"; "keep-alive"; "te"; "upgrade"; "expect";
   "transfer-encoding"; "content-length"].

End Headers.

(** ** The edge routers ([client/nginx.conf], [client/vite.config.js]) *)

Module Router.
Import HTTP Headers.

(** *** Strings of paths and header values *)

(** [strip_prefix p s] is what follows [p] in [s], when [s] starts with
    [p]. *)
Fixpoint strip_prefix (p s : string) : option string :=
  match p, s with
  | EmptyString, _ => Some s
  | String a p', String b s' =>
      if Ascii.eqb a b then strip_prefix p' s' else None
  | String _ _, EmptyString => None
  end.

Definition starts_with (p s : string) : bool :=
  match strip_prefix p s with Some _ => true | None => false end.

Fixpoint ends_with_slash (s : string) : bool :=
  match s with
  | EmptyString => false
  | String c EmptyString => Ascii.eqb c "/"
  | String _ rest => ends_with_slash rest
  end.

(** The path without the slashes at its end. *)
Fixpoint trim_slashes (s : string) : string :=
  match s with
  | EmptyString => EmptyString
  | String c rest =>
      match trim_slashes rest with
      | EmptyString => if Ascii.eqb c "/" then EmptyString else String c EmptyString
      | t => String c t
      end
  end.

(** *** What a router gives back to the caller *)

(** The body as transferred: as it is, or under the gzip content coding
    ([Gzip b] stands for the compressed form of the bytes [b]). *)
Inductive coded : Type :=
| Identity (b : string)
| Gzip (b : string).

Definition decoded (c : coded) : string :=
  match c with Identity b => b | Gzip b => b end.

(** What the model keeps of a response that the packaged router delivers:
    the status, the [Content-Type] and the body.  The other headers (the
    router puts its own [Server] and [Date] in place of the upstream's,
    among others) are left out. *)
Record delivered : Type := mkDelivered {
  d_status : N;
  d_type : option string;
  d_body : coded
}.

(** A response delivered with its body as it was sent. *)
Definition as_sent (r : response) : delivered :=
  mkDelivered (status r) (content_type r) (Identity (resp_body r)).

(** The replies of the packaged router: a response passed through the
    output filters; a redirect or an error page of its own, given by the
    status and, for a redirect, the target; and four cases that the model
    does not follow further. *)
Inductive reply : Type :=
| Delivered (d : delivered)
| Special (code : N) (location : option string)
| Refused                   (* a method the server does not let through, or
                               a body longer than it accepts: 400, 405 or
                               413 *)
| ByValidators              (* a file asked for with validators or a range:
                               200, 206, 304, 412 or 416, as they decide *)
| OwnAnswer                 (* no file for a method other than GET and HEAD:
                               301, 403, 405 or 500 *)
| HandedOver (uri : string). (* the upstream asked for an internal redirect *)

(** *** The packaged router: [nginx.conf] *)

(** The document root [/usr/share/nginx/html]: regular files with their
    media type and bytes, and directories, by absolute path below the
    root (no slash at the end). *)
Inductive entry : Type :=
| File (mime : string) (content : string)
| Dir.

Abbreviation docroot := (gmap string entry).

Definition is_file (fs : docroot) (p : string) : bool :=
  match fs !! p with Some (File _ _) => true | _ => false end.

(** The root itself always is a directory. *)
Definition is_dir (fs : docroot) (p : string) : bool :=
  match trim_slashes p with
  | EmptyString => true
  | key => match fs !! key with Some Dir => true | _ => false end
  end.

(** The tests of [try_files]: [$uri] looks for a regular file, [$uri/]
    for a directory. *)
Inductive try_test : Type := UriFile | UriDir.

(** The values the configuration takes from the connection: [$host] and
    [$remote_addr]. *)
Record connection : Type := mkConnection {
  host : string;
  remote_addr : string
}.

Inductive variable : Type := Var_host | Var_remote_addr | Var_proxy_add_x_forwarded_for.

Inductive directive : Type :=
| try_files (tests : list try_test) (fallback : string)
| proxy_pass (upstream : string) (uri : string)
             (set_header : list (string * variable)).

Record location : Type := mkLocation {
  loc_prefix : string;
  loc_directive : directive
}.

Record server : Type := mkServer {
  listen : N;
  server_name : string;
  root : string;
  index : string;
  locations : list location;
  gzip : bool;
  gzip_types : list string
}.

Definition nginx_conf : server :=
  {| listen := 80;
     server_name := "localhost";
     root := "/usr/share/nginx/html";
     index := "index.html";
     locations :=
       [ mkLocation "/" (try_files [UriFile; UriDir] "/index.html");
         mkLocation "/api/"
           (proxy_pass "http://backend:4000" "/api/"
              [("host", Var_host);
               ("x-real-ip", Var_remote_addr);
               ("x-forwarded-for", Var_proxy_add_x_forwarded_for)]) ];
     gzip := true;
     gzip_types :=
       ["text/plain"; "application/json"; "text/css";
        "application/javascript"; "application/octet-stream"] |}.

(** Among the prefix locations that match, the longest prefix wins,
    whatever the order in the file. *)
Fixpoint select_location (locs : list location) (uri : string)
         (best : option location) : option location :=
  match locs with
  | [] => best
  | l :: rest =>
      let better :=
        starts_with (loc_prefix l) uri
        && match best with
           | None => true
           | Some b => (String.length (loc_prefix b) <? String.length (loc_prefix l))%nat
           end in
      select_location rest uri (if better then Some l else best)
  end.

Definition eval_variable (conn : connection) (req : request) (v : variable)
  : string :=
  match v with
  | Var_host => host conn
  | Var_remote_addr => remote_addr conn
  | Var_proxy_add_x_forwarded_for =>
      match headers req !! "x-forwarded-for" with
      | Some xs => xs +:+ ", " +:+ remote_addr conn
      | None => remote_addr conn
      end
  end.

(** The request sent upstream by [proxy_pass] with a URI part: the part of
    the path that matched the location is replaced by that URI; method,
    query and body are kept; the [proxy_set_header] lines overwrite the
    headers they name. *)
Definition upstream_request (conn : connection) (loc_pfx uri_part : string)
           (set_header : list (string * variable)) (req : request)
  : option request :=
  match strip_prefix loc_pfx (path req) with
  | None => None
  | Some rest =>
      Some {| method := method req;
              path := uri_part +:+ rest;
              query := query req;
              headers :=
                foldl (fun hs kv => <[kv.1 := eval_variable conn req kv.2]> hs)
                      (headers req) set_header;
              body := body req |}
  end.

Definition passes (fs : docroot) (uri : string) (t : try_test) : bool :=
  match t with
  | UriFile => is_file fs uri
  | UriDir => is_dir fs uri
  end.

(** Where a request ends up. *)
Inductive routed : Type :=
| ToUpstream (target : string) (req : request)
| SendFile (p : string)
| Answer (code : N) (location : option string).

(** The number of internal redirects the server follows before it gives
    up with an internal error. *)
Definition max_internal_redirects : nat := 10.

Definition is_proxy_pass (d : directive) : bool :=
  match d with proxy_pass _ _ _ => true | try_files _ _ => false end.

(** A path that is the prefix of a proxied location without the slash at
    its end is answered by a redirect to the prefix. *)
Definition auto_redirect (locs : list location) (uri : string) : bool :=
  existsb (fun l => is_proxy_pass (loc_directive l)
                    && String.eqb (loc_prefix l) (uri +:+ "/")) locs.

(** Processing of one request path.  [try_files] stops at the first test
    that passes; a directory is served through its index file, found by
    an internal redirect (403 without one; a redirect to the path with a
    slash when the slash is missing); when no test passes the request is
    redirected internally to the fallback. *)
Fixpoint locate (conf : server) (conn : connection) (fs : docroot)
         (req : request) (fuel : nat) (uri : string) : routed :=
  if auto_redirect (locations conf) uri then Answer 301 (Some (uri +:+ "/"))
  else
  match select_location (locations conf) uri None with
  | None => Answer 404 None
  | Some loc =>
      match loc_directive loc with
      | proxy_pass target uri_part set_header =>
          match upstream_request conn (loc_prefix loc) uri_part set_header
                  {| method := method req; path := uri; query := query req;
                     headers := headers req; body := body req |} with
          | Some up => ToUpstream target up
          | None => Answer 500 None
          end
      | try_files tests fallback =>
          match find (passes fs uri) tests with
          | Some UriFile => SendFile uri
          | Some UriDir =>
              if ends_with_slash uri then
                if is_file fs (uri +:+ index conf) then
                  match fuel with
                  | O => Answer 500 None
                  | S n => locate conf conn fs req n (uri +:+ index conf)
                  end
                else Answer 403 None
              else Answer 301 (Some (uri +:+ "/"))
          | None =>
              match fuel with
              | O => Answer 500 None
              | S n => locate conf conn fs req n fallback
              end
          end
      end
  end.

Definition nginx_route (conn : connection) (fs : docroot) (req : request)
  : routed :=
  locate nginx_conf conn fs req max_internal_redirects (path req).

(** The size below which a response of known length is never compressed
    (the server's default; the configuration does not set it). *)
Definition gzip_min_length : nat := 20.

(** Whether the caller advertises support for gzip: a value that begins
    with [gzip,] does; for any other value the server reads the list of
    codings and their weights, which is left to [reads]. *)
Definition accepts_gzip (reads : string -> bool) (req : request) : bool :=
  match headers req !! "accept-encoding" with
  | Some v => starts_with "gzip," v || reads v
  | None => false
  end.

(** A reader that finds gzip in no other value. *)
Definition no_other_value : string -> bool := fun _ => false.

Definition lower_char (c : ascii) : ascii :=
  let n := N_of_ascii c in
  if (65 <=? n)%N && (n <=? 90)%N then ascii_of_N (n + 32) else c.

(** The media type of a [Content-Type] value as the server compares it:
    what precedes the first semicolon, without the spaces at its end, in
    lower case. *)
Fixpoint lower_media_type (ct : string) : string :=
  match ct with
  | EmptyString => EmptyString
  | String c rest =>
      if Ascii.eqb c ";" then EmptyString
      else match lower_media_type rest with
           | EmptyString =>
               if Ascii.eqb c " " then EmptyString
               else String (lower_char c) EmptyString
           | t => String (lower_char c) t
           end
  end.

(** The gzip output filter.  With [gzip on], a response to a request of
    HTTP/1.1 is compressed when the request is not a [HEAD], the caller
    accepts gzip and did not come through another proxy (no [Via] header),
    the status is 200, 403 or 404, the body is not coded already, its media
    type is [text/html] or one of [gzip_types], and its length, when the
    response announces it, is at least [gzip_min_length]. *)
Definition compressible (conf : server) (reads : string -> bool)
           (req : request) (r : response) : bool :=
  gzip conf
  && negb (String.eqb (method req) "HEAD")
  && accepts_gzip reads req
  && bool_decide (headers req !! "via" = None)
  && bool_decide (status r ∈ [200; 403; 404]%N)
  && bool_decide (resp_headers r !! "content-encoding" = None)
  && match content_type r with
     | Some ct =>
         bool_decide (lower_media_type ct ∈ "text/html" :: gzip_types conf)
     | None => false
     end
  && match resp_headers r !! "content-length" with
     | Some _ => (gzip_min_length <=? String.length (resp_body r))%nat
     | None => true
     end.

Definition gzip_filter (conf : server) (reads : string -> bool)
           (req : request) (r : response) : delivered :=
  if compressible conf reads req r then
    mkDelivered (status r) (content_type r) (Gzip (resp_body r))
  else as_sent r.

(** A response as HTTP delimits it: the answer to a [HEAD] request and an
    answer with status 204 or 304 have no body, whatever follows the
    headers. *)
Definition bodiless (m : string) (st : N) : bool :=
  String.eqb m "HEAD" || bool_decide (st ∈ [204; 304]%N).

Definition framed (m : string) (r : response) : response :=
  if bodiless m (status r)
  then mkResponse (status r) (resp_headers r) ""
  else r.

(** The answer of the upstream on its way to the caller: followed as an
    internal redirect when it carries [X-Accel-Redirect], passed through
    the gzip filter otherwise. *)
Definition proxied_reply (conf : server) (reads : string -> bool)
           (req : request) (r : response) : reply :=
  match resp_headers r !! "x-accel-redirect" with
  | Some uri => HandedOver uri
  | None => Delivered (gzip_filter conf reads req (framed (method req) r))
  end.

(** The request headers that make the answer for a file depend on the
    caller's copy or ask for a part of it. *)
Definition validators : list string :=
  ["if-modified-since"; "if-unmodified-since"; "if-match"; "if-none-match";
   "range"; "if-range"].

Definition is_plain (req : request) : bool :=
  forallb (fun k => bool_decide (headers req !! k = None)) validators.

Definition get_or_head (m : string) : bool :=
  String.eqb m "GET" || String.eqb m "HEAD".

(** The answer for a regular file to a [GET] or [HEAD] request: status 200
    with the file's media type, length and bytes ([HEAD]: no bytes), through
    the gzip filter. *)
Definition static_reply (conf : server) (reads : string -> bool)
           (req : request) (mime content : string) : reply :=
  if is_plain req then
    Delivered
      (gzip_filter conf reads req
         (mkResponse 200
            (<["content-length" := pretty (String.length content)]>
               {["content-type" := mime]})
            (if String.eqb (method req) "HEAD" then "" else content)))
  else ByValidators.

(** The request line is read with a method made of capital letters,
    [_] and [-]; anything else is a bad request. *)
Definition method_char (c : ascii) : bool :=
  let n := N_of_ascii c in
  ((65 <=? n) && (n <=? 90) || (n =? 95) || (n =? 45))%N.

Fixpoint method_chars (m : string) : bool :=
  match m with
  | EmptyString => true
  | String c rest => method_char c && method_chars rest
  end.

Definition method_token (m : string) : bool :=
  negb (String.eqb m "") && method_chars m.

(** The methods the server refuses before it looks at the path. *)
Definition refused_method (m : string) : bool :=
  String.eqb m "TRACE" || String.eqb m "CONNECT".

(** The methods that get as far as the locations. *)
Definition routed_method (m : string) : bool :=
  method_token m && negb (refused_method m).

(** The longest request body the server accepts (its default of one
    megabyte; the configuration does not set it). *)
Definition client_max_body_size : N := 1048576.

Definition body_fits (req : request) : bool :=
  (N.of_nat (String.length (body req)) <=? client_max_body_size)%N.

(** The requests that get as far as the handler of their location. *)
Definition admitted (req : request) : bool :=
  routed_method (method req) && body_fits req.

(** The packaged router as a whole, in front of the API service [api]. *)
Definition nginx_handle (reads : string -> bool) (conn : connection)
           (fs : docroot) (api : request -> response) (req : request) : reply :=
  if negb (admitted req) then Refused
  else
    match nginx_route conn fs req with
    | ToUpstream _ up => proxied_reply nginx_conf reads req (api up)
    | SendFile p =>
        if get_or_head (method req) then
          match fs !! p with
          | Some (File mime content) =>
              static_reply nginx_conf reads req mime content
          | _ => Special 404 None
          end
        else OwnAnswer
    | Answer code loc =>
        if get_or_head (method req) then Special code loc else OwnAnswer
    end.

(** *** The development router: [vite.config.js] *)

Record proxy_options : Type := mkProxyOptions {
  target : string;
  changeOrigin : bool;
  secure : bool
}.

Record vite_server : Type := mkViteServer {
  port : N;
  proxy : list (string * proxy_options)
}.

Definition vite_config : vite_server :=
  {| port := 3000;
     proxy := [("/api", {| target := "http://localhost:4000";
                           changeOrigin := true; secure := false |})] |}.

(** The first context the request path starts with. *)
Definition proxy_rule (conf : vite_server) (req : request)
  : option (string * proxy_options) :=
  find (fun rule => starts_with rule.1 (path req)) (proxy conf).

(** The host and port of a target URL. *)
Definition authority (url : string) : string :=
  match strip_prefix "http://" url with
  | Some a => a
  | None => url
  end.

(** The request sent to the target: the same request (no [rewrite] is
    configured), with the [Host] header set to the target's when
    [changeOrigin] is on. *)
Definition vite_upstream_request (opts : proxy_options) (req : request)
  : request :=
  {| method := method req; path := path req; query := query req;
     headers := if changeOrigin opts
                then <["host" := authority (target opts)]> (headers req)
                else headers req;
     body := body req |}.

(** What the development server does with a request before its proxy
    rules are looked at (the reading of the request line, its handling of
    other origins, of the [Host] header, and whatever else its version
    puts there) is not in the configuration: [front] gives [None] when the
    request is answered or dropped there, and otherwise the headers set on
    the response so far. *)
Definition dev_front : Type := request -> option (gmap string string).

(** A front that lets every request through, with the header it sets
    for other origins. *)
Definition open_front : dev_front := fun _ => Some {["vary" := "Origin"]}.

Inductive dev_reply : Type :=
| InFront                    (* answered before the proxy rules *)
| Proxied (target : string) (up : request) (r : response)
| Rewritten (target : string)
                             (* forwarded, with the request target as the
                                proxy library rewrites it *)
| LeftToDevServer.           (* no rule: the server's own handling of the
                                client's files *)

(** The proxy library parses the request target and joins it to the path
    of the rule's target again.  A request target comes out of that as it
    went in when its path is made of letters, digits and [/ - . _ ~ %],
    without two slashes in a row, and its query of the same characters and
    [= &]; the model follows the forwarding of these targets only. *)
Definition path_char (c : ascii) : bool :=
  let n := N_of_ascii c in
  ((48 <=? n) && (n <=? 57) || (65 <=? n) && (n <=? 90)
   || (97 <=? n) && (n <=? 122) || (45 <=? n) && (n <=? 47)
   || (n =? 95) || (n =? 126) || (n =? 37))%N.

Definition query_char (c : ascii) : bool :=
  path_char c || Ascii.eqb c "=" || Ascii.eqb c "&".

Fixpoint all_chars (f : ascii -> bool) (s : string) : bool :=
  match s with
  | EmptyString => true
  | String c rest => f c && all_chars f rest
  end.

Fixpoint no_double_slash (s : string) : bool :=
  match s with
  | EmptyString => true
  | String c rest =>
      match rest with
      | String d _ => negb (Ascii.eqb c "/" && Ascii.eqb d "/")
      | EmptyString => true
      end && no_double_slash rest
  end.

Definition plain_target (req : request) : bool :=
  all_chars path_char (path req) && no_double_slash (path req)
  && all_chars query_char (query req).

(** The answer of the target on its way back, as the proxy writes it:
    status and body as they are; the target's headers, next to those
    already set.  The headers that describe a connection are left out of
    the model, and so is what Node.js adds by itself when the head is
    written (a [Date] where there is none). *)
Definition piped_back (added : gmap string string) (r : response) : response :=
  mkResponse (status r)
    (filter (fun kv => kv.1 ∉ hop_by_hop) (resp_headers r ∪ added))
    (resp_body r).

(** The development router in front of the API service: a request that
    gets as far as the proxy rules and matches one is forwarded and the
    answer piped back. *)
Definition vite_handle (front : dev_front) (api : request -> response)
           (req : request) : dev_reply :=
  match front req with
  | None => InFront
  | Some added =>
      match proxy_rule vite_config req with
      | Some (_, opts) =>
          if plain_target req then
            let up := vite_upstream_request opts req in
            Proxied (target opts) up
              (piped_back added (framed (method up) (api up)))
          else Rewritten (target opts)
      | None => LeftToDevServer
      end
  end.

(** The request that [location /api/] sends upstream. *)
Definition forwarded (conn : connection) (req : request) : request :=
  {| method := method req; path := path req; query := query req;
     headers :=
       <["x-forwarded-for" := eval_variable conn req Var_proxy_add_x_forwarded_for]>
         (<["x-real-ip" := remote_addr conn]>
            (<["host" := host conn]> (headers req)));
     body := body req |}.

(** The paths that belong to the API for the packaged router: those under
    the prefix of its proxied location, and that prefix without its last
    slash (redirected to it). *)
Definition under_api (p : string) : bool :=
  String.eqb p "/api" || starts_with "/api/" p.

(** *** The API service behind the routers *)

(** The API service as the routers reach it: the Express application
    where its route answers, and [own] for the answers that the framework
    and its libraries make by themselves. *)
Definition api_service (fw : Server.framework) (own : request -> response)
           (req : request) : response :=
  match Server.serve fw req with
  | Some r => r
  | None => own req
  end.

(** An upstream that answers every request with the path it was asked
    for, as plain text. *)
Definition echo_api : request -> response :=
  fun up => mkResponse 200 {["content-type" := "text/plain"]} (path up).

(** *** Sample callers and files *)

(** A document root as the client's build leaves it: the entry document
    and a directory [assets] with the script bundle. *)
Definition sample_docroot : docroot :=
  <["/index.html" := File "text/html" "<!doctype html><div id=root></div>"]>
    (<["/assets" := Dir]>
       (<["/assets/index.js" := File "application/javascript" "render()"]> ∅)).

Definition caller : connection := mkConnection "localhost" "172.18.0.1".

(** A [GET] request from a browser, which advertises gzip. *)
Definition browser_get (p : string) : request :=
  mkRequest "GET" p "" {["accept-encoding" := "gzip, deflate, br"]} "".

(** A [GET] request without any header. *)
Definition plain_get (p : string) : request := mkRequest "GET" p "" ∅ "".

(** A [POST] request without any header. *)
Definition plain_post (p : string) : request := mkRequest "POST" p "" ∅ "".

End Router.

(** ** The versions of the component given in the guide ([README.md]) *)

Module Guide.
Import JS Client.

(** *** The first version of [App.jsx] *)

(** [(res) => { if (!res.ok) throw new Error("Network response was not OK");
    return res.json(); }] *)
Definition on_response (res : Response) : M world (settled JS.json) :=
  if negb (ok res)
  then throw (new_Error "Network response was not OK")
  else ret (json res).

(** [(err) => { setMessage("Failed to fetch message: " + err.message); }]:
    nothing is written to the console. *)
Definition on_error (err : Error) : M world (settled ()) :=
  bind (setMessage
          (CatchUpdate ("Failed to fetch message: " +:+ JS.message err)))
       (fun _ => ret (Fulfilled ())).

(** The chain of the first version; its second callback is the one of the
    final component. *)
Definition fetch_chain (outcome : settled Response)
  : world -> settled () * world :=
  fun w =>
    let '(p1, w1) := promise_then outcome on_response w in
    let '(p2, w2) := promise_then p1 on_data w1 in
    promise_catch p2 on_error w2.

Definition display_after (outcome : settled Response) : DisplayState :=
  display_state (snd (fetch_chain outcome (hooks fetching))).

Definition message_after (outcome : settled Response) : value :=
  Client.message (snd (fetch_chain outcome (hooks fetching))).

(** *** The commented version with a counter *)

(** Its state: [message] (initially the empty string), [count] (initially
    0), and the console. *)
Record state : Type := mkState {
  message : value;
  count : N;
  console : list (string * Error)
}.

(** [count + 1] on numbers: exact up to 2^53, where adding one rounds back
    to 2^53. *)
Definition max_exact : N := 9007199254740992.

Definition plus_one (n : N) : N := if (n <? max_exact)%N then (n + 1)%N else n.

Definition setMessage (v : value) : M state () :=
  modify (fun s => {| message := v; count := count s; console := console s |}).

Definition setCount (n : N) : M state () :=
  modify (fun s => {| message := message s; count := n; console := console s |}).

Definition console_error (label : string) (err : Error) : M state () :=
  modify (fun s =>
    {| message := message s; count := count s;
       console := (console s ++ [(label, err)])%list |}).

(** [(res) => res.json()]: the status is not looked at. *)
Definition counter_on_response (res : Response) : M state (settled JS.json) :=
  ret (json res).

(** [(data) => setMessage(data.message)] *)
Definition counter_on_data (data : JS.json) : M state (settled ()) :=
  match get_property data "message" with
  | inl e => throw e
  | inr v => bind (setMessage v) (fun _ => ret (Fulfilled ()))
  end.

(** [(error) => console.error("Error fetching message:", error)] *)
Definition counter_on_error (err : Error) : M state (settled ()) :=
  bind (console_error "Error fetching message:" err)
       (fun _ => ret (Fulfilled ())).

Definition counter_chain (outcome : settled Response)
  : state -> settled () * state :=
  fun s =>
    let '(p1, s1) := promise_then outcome counter_on_response s in
    let '(p2, s2) := promise_then p1 counter_on_data s1 in
    promise_catch p2 counter_on_error s2.

(** [() => setCount(count + 1)], with the [count] of the render that
    created the handler; a click is followed by a render before the next
    event is handled, so that is the current [count]. *)
Definition on_click : M state () :=
  fun s => setCount (plus_one (count s)) s.

Record counter_instance : Type := mkCounter {
  counter_hooks : state;
  counter_effect_ran : bool;
  counter_issued : nat;
  counter_in_flight : nat
}.

(** [useState("")] and [useState(0)]. *)
Definition counter_mount : counter_instance :=
  {| counter_hooks := {| message := VStr ""; count := 0; console := [] |};
     counter_effect_ran := false; counter_issued := 0; counter_in_flight := 0 |}.

Inductive counter_event : Type :=
| CRunEffect
| CRerender
| CClick
| CSettle (outcome : settled Response).

Definition counter_step (c : counter_instance) (ev : counter_event)
  : option counter_instance :=
  match ev with
  | CRunEffect =>
      if counter_effect_ran c then None
      else Some {| counter_hooks := counter_hooks c; counter_effect_ran := true;
                   counter_issued := S (counter_issued c);
                   counter_in_flight := S (counter_in_flight c) |}
  | CRerender => Some c
  | CClick =>
      Some {| counter_hooks := snd (on_click (counter_hooks c));
              counter_effect_ran := counter_effect_ran c;
              counter_issued := counter_issued c;
              counter_in_flight := counter_in_flight c |}
  | CSettle outcome =>
      match counter_in_flight c with
      | O => None
      | S n => Some {| counter_hooks := snd (counter_chain outcome (counter_hooks c));
                       counter_effect_ran := counter_effect_ran c;
                       counter_issued := counter_issued c;
                       counter_in_flight := n |}
      end
  end.

Fixpoint counter_run (c : counter_instance) (evs : list counter_event)
  : option counter_instance :=
  match evs with
  | [] => Some c
  | ev :: rest =>
      match counter_step c ev with
      | Some c' => counter_run c' rest
      | None => None
      end
  end.

Definition is_click (ev : counter_event) : bool :=
  match ev with CClick => true | _ => false end.

Definition is_csettle (ev : counter_event) : bool :=
  match ev with CSettle _ => true | _ => false end.

(** The number of clicks in a sequence of events. *)
Definition clicks (evs : list counter_event) : nat :=
  length (filter (fun ev => is_click ev = true) evs).

(** The fragment returned by this version. *)
Definition counter_render (s : state) : option (list node) :=
  match children_of (message s) with
  | Some kids =>
      Some [Elem "h1" [Text "Welcome to chaicode frontend"];
            Elem "h2" (Text "Data: " :: kids);
            Elem "p" [Text "Current Count: "; Text (pretty (count s))];
            Elem "button" [Text "Increase Count"]]
  | None => None
  end.

End Guide.

(** ** Values that React refuses as a child *)

Module Shape.
Import JS.

(** Whether a JSON value is a plain object or has one among the items of
    its arrays, at any depth. *)
Fixpoint contains_object (j : json) : bool :=
  match j with
  | JObj _ => true
  | JArr items => existsb contains_object items
  | _ => false
  end.

End Shape.

(** ** The packaged router with its location blocks in another order *)

Module Reorder.
Import Router.

Definition with_locations (conf : server) (locs : list location) : server :=
  {| listen := listen conf; server_name := server_name conf;
     root := root conf; index := index conf;
     locations := locs;
     gzip := gzip conf; gzip_types := gzip_types conf |}.

(** [nginx.conf] with [location /api/] written before [location /]. *)
Definition nginx_conf_swapped : server :=
  with_locations nginx_conf (rev (locations nginx_conf)).

End Reorder.

(** ** Properties of the API service *)

Module ServerFacts.
Import JS HTTP Digest Server.

Lemma stringify_payload : stringify payload = payload_text.
Proof. reflexivity. Qed.

Lemma payload_text_bytes : String.length payload_text = 40.
Proof. reflexivity. Qed.

Lemma payload_etag_computed : etag payload_text = payload_etag.
Proof. vm_compute. reflexivity. Qed.

Lemma send_headers_payload :
  send_headers (res_headers at_handler) "application/json; charset=utf-8"
               payload_text
  = payload_headers.
Proof. vm_compute. reflexivity. Qed.

Lemma handler_at_handler fw req :
  message_handler fw req at_handler
  = Return (finish fw req 200 payload_headers payload_text).
Proof.
  unfold message_handler, res_json.
  replace (header_value (res_headers at_handler) "content-type") with (@None string)
    by (vm_compute; reflexivity).
  rewrite stringify_payload, send_headers_payload. reflexivity.
Qed.

Lemma get_or_head_not_options m :
  get_or_head m = true -> String.eqb (to_lower m) "options" = false.
Proof.
  unfold get_or_head. intros H. apply orb_true_iff in H as [H|H];
    apply String.eqb_eq in H; subst; reflexivity.
Qed.

Lemma get_or_head_matches m :
  get_or_head m = true -> method_matches (app_get "/api/message" message_handler) m = true.
Proof.
  unfold get_or_head. intros H. apply orb_true_iff in H as [H|H];
    apply String.eqb_eq in H; subst; reflexivity.
Qed.

(** The application on a request that its route takes. *)
Lemma app_on_route fw req :
  has_body req && body_refused fw req = false ->
  get_or_head (method req) = true ->
  path_matches (app_get "/api/message" message_handler) (path req) = true ->
  app fw req = Answered (finish fw req 200 payload_headers payload_text).
Proof.
  intros Hb Hm Hp. unfold app, express_json. rewrite Hb.
  unfold cors. rewrite (get_or_head_not_options _ Hm).
  change (dispatch fw routes req at_handler
          = Answered (finish fw req 200 payload_headers payload_text)).
  unfold routes, dispatch, route_matches.
  rewrite (get_or_head_matches _ Hm), Hp. cbn [andb route_handler app_get].
  rewrite handler_at_handler. reflexivity.
Qed.

Lemma finish_payload fw req :
  get_or_head (method req) = true ->
  finish fw req 200 payload_headers payload_text
  = if payload_fresh fw req
    then {| statusCode := 304; res_headers := not_modified_headers;
            sent := Some "" |}
    else {| statusCode := 200; res_headers := payload_headers;
            sent := Some (if String.eqb (method req) "HEAD" then ""
                          else payload_text) |}.
Proof.
  intros Hm. unfold finish, req_fresh. rewrite Hm.
  replace (payload_headers !! "etag") with (Some payload_etag)
    by (vm_compute; reflexivity).
  replace (payload_headers !! "last-modified") with (@None string)
    by (vm_compute; reflexivity).
  change (fresh fw (headers req) (Some payload_etag) None)
    with (payload_fresh fw req).
  cbn [andb orb N.leb N.ltb N.eqb].
  destruct (payload_fresh fw req).
  - cbn. destruct (String.eqb (method req) "HEAD"); reflexivity.
  - cbn. reflexivity.
Qed.

Lemma unconditional_not_fresh fw rh tag lm :
  header_value rh "if-none-match" = None ->
  header_value rh "if-modified-since" = None ->
  fresh fw rh tag lm = false.
Proof. intros H1 H2. unfold fresh. rewrite H1, H2. reflexivity. Qed.

Lemma match_any_is_fresh fw rh tag :
  rh !! "if-none-match" = Some "*" ->
  rh !! "if-modified-since" = None ->
  rh !! "cache-control" = None ->
  fresh fw rh tag None = true.
Proof.
  intros H1 H2 H3. unfold fresh, header_value. rewrite H1, H2, H3. reflexivity.
Qed.

(** The route's answer as a response. *)
Lemma serve_message fw req :
  method req = "GET" -> path req = "/api/message" -> has_body req = false ->
  serve fw req
  = Some (if payload_fresh fw req
          then mkResponse 304 not_modified_headers ""
          else mkResponse 200 payload_headers payload_text).
Proof.
  intros Hm Hp Hb. unfold serve.
  assert (Hg : get_or_head (method req) = true) by (rewrite Hm; reflexivity).
  rewrite (app_on_route fw req);
    [|rewrite Hb; reflexivity|exact Hg|rewrite Hp; reflexivity].
  rewrite (finish_payload fw req Hg), Hm.
  destruct (payload_fresh fw req); reflexivity.
Qed.

(** Freshness reads three request headers only. *)
Lemma payload_fresh_ext fw req req' :
  headers req' !! "if-modified-since" = headers req !! "if-modified-since" ->
  headers req' !! "if-none-match" = headers req !! "if-none-match" ->
  headers req' !! "cache-control" = headers req !! "cache-control" ->
  payload_fresh fw req' = payload_fresh fw req.
Proof.
  intros H1 H2 H3. unfold payload_fresh, fresh, header_value.
  rewrite H1, H2, H3. reflexivity.
Qed.

Lemma has_body_ext req req' :
  headers req' !! "transfer-encoding" = headers req !! "transfer-encoding" ->
  headers req' !! "content-length" = headers req !! "content-length" ->
  has_body req' = has_body req.
Proof. intros H1 H2. unfold has_body. rewrite H1, H2. reflexivity. Qed.

(** C1 (as stated) fails: a [GET] for the API path that carries
    [If-None-Match: *] is answered with status 304 and an empty body, without
    a content type. *)
Lemma C1_counterexample_conditional_get :
  method conditional_get = "GET"
  /\ path conditional_get = "/api/message"
  /\ forall fw, exists res,
       app fw conditional_get = Answered res
       /\ statusCode res = 304%N
       /\ sent res = Some ""
       /\ res_headers res !! "content-type" = None.
Proof.
  split; [reflexivity|]. split; [reflexivity|]. intros fw.
  eexists. split; [vm_compute; reflexivity|]. repeat split.
Qed.

(** C1 (amended): a [GET] request for /api/message whose body, if it has
    one, the body parser accepts is answered by the route.  When the
    request is not a conditional request that is still fresh (in
    particular when it carries neither [If-None-Match] nor
    [If-Modified-Since]) the answer has status 200, the JSON content type,
    length 40, the entity tag of the payload, and a body that is the object
    with the single field [message], whose value is the non-empty string
    "Hello from chaicode server".  When it is fresh the answer is 304 with
    an empty body. *)
Theorem C1_api_message_response (fw : framework) (req : request) :
  method req = "GET" -> path req = "/api/message" ->
  has_body req && body_refused fw req = false ->
  exists res,
    app fw req = Answered res
    /\ (payload_fresh fw req = false ->
        statusCode res = 200%N
        /\ sent res = Some (stringify payload)
        /\ res_headers res !! "content-type"
           = Some "application/json; charset=utf-8"
        /\ res_headers res !! "content-length" = Some "40"
        /\ res_headers res !! "etag" = Some (etag (stringify payload)))
    /\ (payload_fresh fw req = true ->
        statusCode res = 304%N /\ sent res = Some ""
        /\ res_headers res !! "content-type" = None)
    /\ (header_value (headers req) "if-none-match" = None ->
        header_value (headers req) "if-modified-since" = None ->
        payload_fresh fw req = false)
    /\ stringify payload = payload_text
    /\ payload = JObj [("message", JStr "Hello from chaicode server")]
    /\ get_property payload "message" = inr (VStr greeting)
    /\ greeting <> ""
    /\ (forall k, has_property payload k = true -> k = "message").
Proof.
  intros Hm Hp Hb.
  assert (Hg : get_or_head (method req) = true) by (rewrite Hm; reflexivity).
  assert (Hpm : path_matches (app_get "/api/message" message_handler) (path req)
                = true) by (rewrite Hp; reflexivity).
  eexists. split; [apply (app_on_route fw req Hb Hg Hpm)|].
  rewrite (finish_payload fw req Hg), stringify_payload, payload_etag_computed.
  split.
  { intros ->. rewrite Hm. cbn [statusCode sent res_headers].
    split; [reflexivity|]. split; [reflexivity|].
    split; [vm_compute; reflexivity|]. split; vm_compute; reflexivity. }
  split.
  { intros ->. cbn [statusCode sent res_headers].
    split; [reflexivity|]. split; [reflexivity|]. vm_compute. reflexivity. }
  split; [apply unconditional_not_fresh|].
  split; [reflexivity|]. split; [reflexivity|]. split; [reflexivity|].
  split; [discriminate|].
  intros k Hk. unfold payload, has_property, own_property in Hk.
  destruct (String.eqb_spec "message" k) as [->|Hne]; [reflexivity|].
  apply bool_decide_eq_true in Hk. destruct Hk as [v Hv]. discriminate.
Qed.

Lemma C1_api_message_witness :
  exists res,
    app plain_framework sample_get
    = Answered res
    /\ statusCode res = 200%N
    /\ sent res = Some payload_text
    /\ res_headers res !! "etag" = Some payload_etag.
Proof.
  destruct (C1_api_message_response plain_framework
              sample_get
              eq_refl eq_refl ltac:(vm_compute; reflexivity))
    as (res & Ha & H200 & _ & Hu & Hs & _).
  destruct (H200 (Hu ltac:(vm_compute; reflexivity) ltac:(vm_compute; reflexivity)))
    as (H1 & H2 & _ & _ & H5).
  exists res. split; [exact Ha|]. split; [exact H1|].
  split; [rewrite H2, Hs; reflexivity|].
  rewrite H5, Hs. vm_compute. reflexivity.
Defined.




End ServerFacts.

(** ** Properties of the client *)

Module ClientFacts.
Import JS Client.

Lemma fetch_chain_updates o w :
  updates (snd (fetch_chain o w)) = (updates w ++ [outcome_update o])%list
  /\ message (snd (fetch_chain o w)) = update_value (outcome_update o).
Proof.
  destruct o as [[[] st [data|e]]|e]; try (split; reflexivity).
  unfold fetch_chain, outcome_update, on_data; simpl.
  destruct (get_property data "message") as [e|v]; split; reflexivity.
Qed.

Lemma display_state_snoc w us u :
  updates w = (us ++ [u])%list ->
  display_state w
  = match u with ThenUpdate v => Loaded v | CatchUpdate s => Failed s end.
Proof. intros H. unfold display_state. rewrite H, last_snoc. reflexivity. Qed.

Lemma display_after_update o :
  display_after o
  = match outcome_update o with
    | ThenUpdate v => Loaded v
    | CatchUpdate s => Failed s
    end.
Proof.
  unfold display_after.
  destruct (fetch_chain_updates o (hooks fetching)) as [Hu _].
  apply (display_state_snoc _ _ _ Hu).
Qed.

Lemma message_after_update o :
  message_after o = update_value (outcome_update o).
Proof. apply fetch_chain_updates. Qed.

(** What is displayed always is the text of the Display State. *)
Lemma message_after_display o :
  match display_after o with
  | Pending => False
  | Loaded v => message_after o = v
  | Failed s => message_after o = VStr s
  end.
Proof.
  rewrite display_after_update, message_after_update.
  destruct (outcome_update o); reflexivity.
Qed.

Lemma get_property_not_null data key :
  data <> JNull -> exists v, get_property data key = inr v.
Proof.
  intros Hn. destruct data; simpl; try (eexists; reflexivity).
  - contradiction.
  - destruct (own_property props key); eexists; reflexivity.
Qed.

Lemma get_property_present props key m :
  own_property props key = Some m ->
  get_property (JObj props) key = inr (Json m).
Proof. intros H. simpl. rewrite H. reflexivity. Qed.

Lemma get_property_absent data key :
  data <> JNull -> has_property data key = false ->
  get_property data key = inr Undefined.
Proof.
  intros Hn Hp. destruct data; simpl; try reflexivity.
  - contradiction.
  - simpl in Hp. destruct (own_property props key); [|reflexivity].
    apply bool_decide_eq_false in Hp. exfalso. apply Hp. eexists; reflexivity.
Qed.

(** The settlements after which the Display State is [Loaded]. *)
Lemma loaded_iff o v :
  display_after o = Loaded v
  <-> exists res data,
        o = Fulfilled res /\ ok res = true /\ json res = Fulfilled data
        /\ data <> JNull /\ get_property data "message" = inr v.
Proof.
  rewrite display_after_update. split.
  - destruct o as [[[] st [data|e]]|e]; simpl; try discriminate.
    destruct (get_property data "message") as [e|v'] eqn:Hg; [discriminate|].
    intros [= ->]. exists (mkResponse true st (Fulfilled data)), data.
    repeat split; try assumption.
    intros ->. discriminate.
  - intros (res & data & -> & Hok & Hj & _ & Hg). simpl.
    rewrite Hok, Hj, Hg. reflexivity.
Qed.

Lemma failed_of_not_ok res :
  ok res = false ->
  display_after (Fulfilled res)
  = Failed (failure_text
              (new_Error ("HTTP error! status: " +:+ pretty (status res)))).
Proof.
  intros H. rewrite display_after_update. simpl. rewrite H. reflexivity.
Qed.

Lemma shown_string s : shown (VStr s) = Some s.
Proof.
  unfold shown; simpl. f_equal.
  induction s as [|c s IH]; [reflexivity|].
  change (String c (s +:+ "") = String c s). congruence.
Qed.

Lemma lifecycle_inv_mount : lifecycle_inv mount.
Proof. left. repeat split. Qed.

Lemma step_lifecycle_inv c ev c' :
  lifecycle_inv c -> step c ev = Some c' -> lifecycle_inv c'.
Proof.
  intros Hinv Hstep. destruct ev as [| |o]; simpl in Hstep.
  - destruct (effect_ran c) eqn:He; [discriminate|].
    injection Hstep as <-.
    destruct Hinv as [(_ & Hi & Hf & Hu)|[(Hr & _)|(Hr & _)]];
      try congruence.
    right; left. simpl. rewrite Hi, Hf. repeat split. exact Hu.
  - injection Hstep as <-. exact Hinv.
  - destruct (in_flight c) as [|n] eqn:Hf; [discriminate|].
    injection Hstep as <-.
    destruct Hinv as [(_ & _ & Hf' & _)|[(Hr & Hi & Hf' & Hu)|(_ & _ & Hf' & _)]];
      try congruence.
    right; right. simpl. repeat split; try assumption; try congruence.
    exists (outcome_update o).
    destruct (fetch_chain_updates o (hooks c)) as [-> _]. rewrite Hu.
    reflexivity.
Qed.

Lemma run_lifecycle_inv evs : forall c c',
  lifecycle_inv c -> run c evs = Some c' -> lifecycle_inv c'.
Proof.
  induction evs as [|ev evs IH]; intros c c' Hinv Hrun; simpl in Hrun.
  - injection Hrun as <-. exact Hinv.
  - destruct (step c ev) as [c1|] eqn:Hs; [|discriminate].
    eapply IH; [|exact Hrun]. eapply step_lifecycle_inv; eassumption.
Qed.

Lemma reachable_inv c : reachable c -> lifecycle_inv c.
Proof.
  intros [evs Hrun]. eapply run_lifecycle_inv; [apply lifecycle_inv_mount|].
  exact Hrun.
Qed.

Lemma step_quiet c ev c' :
  step c ev = Some c' -> is_settle ev = false -> hooks c' = hooks c.
Proof.
  intros Hs Hq. destruct ev; simpl in *; try discriminate.
  - destruct (effect_ran c); [discriminate|]. injection Hs as <-. reflexivity.
  - injection Hs as <-. reflexivity.
Qed.

Lemma run_quiet evs : forall c c',
  run c evs = Some c' -> existsb is_settle evs = false -> hooks c' = hooks c.
Proof.
  induction evs as [|ev evs IH]; intros c c' Hrun Hq; simpl in *.
  - injection Hrun as <-. reflexivity.
  - destruct (step c ev) as [c1|] eqn:Hs; [|discriminate].
    apply orb_false_iff in Hq as [Hq1 Hq2].
    rewrite (IH _ _ Hrun Hq2). eapply step_quiet; eassumption.
Qed.

(** *** Pending to Loaded *)

(** C2 (as stated) fails: a successful response whose body is the empty
    object, which has no [message] field, still makes the Display State
    [Loaded]. *)
Lemma C2_counterexample_empty_object :
  ok empty_object_response = true
  /\ json empty_object_response = Fulfilled (JObj [])
  /\ has_property (JObj []) "message" = false
  /\ display_after (Fulfilled empty_object_response) = Loaded Undefined.
Proof. repeat split. Qed.

(** C2 (amended): the Display State becomes [Loaded] exactly when the
    request completes with a successful status and a parsed JSON body
    other than [null]; the text is then the body's [message] value
    ([undefined] when the field is absent).  The simulated body
    [{"message":"Hello from chaicode server"}] yields exactly that string
    in the output. *)
Theorem C2_loaded_iff_success_with_body :
  (forall o v,
      display_after o = Loaded v
      <-> exists res data,
            o = Fulfilled res /\ ok res = true /\ json res = Fulfilled data
            /\ data <> JNull /\ get_property data "message" = inr v)
  /\ (forall st props m,
        own_property props "message" = Some m ->
        display_after (Fulfilled (mkResponse true st (Fulfilled (JObj props))))
        = Loaded (Json m))
  /\ display_after (Fulfilled hello_response)
     = Loaded (VStr "Hello from chaicode server")
  /\ shown (message_after (Fulfilled hello_response))
     = Some "Hello from chaicode server".
Proof.
  split; [exact loaded_iff|]. split; [|split; reflexivity].
  intros st props m Hm. apply loaded_iff.
  exists (mkResponse true st (Fulfilled (JObj props))), (JObj props).
  repeat split; [discriminate|]. apply get_property_present, Hm.
Qed.

(** C9 (as stated) fails: the body [null] is parseable JSON without a
    [message] field, yet reading [data.message] throws and the Display
    State becomes [Failed]. *)
Lemma C9_counterexample_null_body :
  ok null_response = true
  /\ json null_response = Fulfilled JNull
  /\ has_property JNull "message" = false
  /\ display_after (Fulfilled null_response)
     = Failed ("Failed to fetch message: "
               +:+ "Cannot read properties of null (reading 'message')").
Proof. repeat split. Qed.

(** C9 (amended): a successful response whose parsed body is not [null]
    and has no [message] field makes the Display State [Loaded] with the
    text [undefined], which renders as nothing; the presence of the field
    is not checked. *)
Theorem C9_missing_field_still_loaded (res : Response) (data : JS.json) :
  ok res = true -> json res = Fulfilled data ->
  data <> JNull -> has_property data "message" = false ->
  display_after (Fulfilled res) = Loaded Undefined
  /\ message_after (Fulfilled res) = Undefined
  /\ shown (message_after (Fulfilled res)) = Some "".
Proof.
  intros Hok Hj Hn Hp.
  assert (Hd : display_after (Fulfilled res) = Loaded Undefined).
  { apply loaded_iff. exists res, data. repeat split; try assumption.
    apply get_property_absent; assumption. }
  pose proof (message_after_display (Fulfilled res)) as Hm.
  rewrite Hd in Hm. rewrite Hm. split; [exact Hd|]. split; reflexivity.
Qed.

Lemma C9_missing_field_witness :
  display_after (Fulfilled empty_object_response) = Loaded Undefined
  /\ message_after (Fulfilled empty_object_response) = Undefined
  /\ shown (message_after (Fulfilled empty_object_response)) = Some "".
Proof.
  apply (C9_missing_field_still_loaded empty_object_response (JObj []));
    [reflexivity | reflexivity | discriminate | reflexivity].
Defined.

(** *** Pending to Failed *)

(** C3: a response with a non-success status makes the Display State
    [Failed], whatever its body, and never [Loaded]; a rejected request
    makes it [Failed] with the text "Failed to fetch message: " followed
    by the reason, and that text is what is rendered. *)
Theorem C3_failures_are_failed (res : Response) (e : Error) :
  ok res = false ->
  (exists s, display_after (Fulfilled res) = Failed s)
  /\ (forall v, display_after (Fulfilled res) <> Loaded v)
  /\ display_after (Rejected e)
     = Failed ("Failed to fetch message: " +:+ JS.message e)
  /\ shown (message_after (Rejected e))
     = Some ("Failed to fetch message: " +:+ JS.message e).
Proof.
  intros Hok. rewrite (failed_of_not_ok res Hok).
  split; [eexists; reflexivity|]. split; [discriminate|].
  split; [reflexivity|]. apply shown_string.
Qed.

Lemma C3_failures_witness :
  (exists s, display_after (Fulfilled (Response_of 500 (Fulfilled Server.payload)))
             = Failed s)
  /\ (forall v, display_after (Fulfilled (Response_of 500 (Fulfilled Server.payload)))
                <> Loaded v)
  /\ display_after (Rejected connection_refused)
     = Failed "Failed to fetch message: Failed to fetch"
  /\ shown (message_after (Rejected connection_refused))
     = Some "Failed to fetch message: Failed to fetch".
Proof.
  apply (C3_failures_are_failed
           (Response_of 500 (Fulfilled Server.payload)) connection_refused).
  reflexivity.
Defined.

(** C10: for a response with a non-success status the displayed text is
    "Failed to fetch message: " followed by "HTTP error! status: " and
    the status code in decimal. *)
Theorem C10_http_error_text (res : Response) :
  ok res = false ->
  display_after (Fulfilled res)
  = Failed ("Failed to fetch message: " +:+ "HTTP error! status: "
            +:+ pretty (status res))
  /\ message_after (Fulfilled res)
     = VStr ("Failed to fetch message: " +:+ "HTTP error! status: "
             +:+ pretty (status res)).
Proof.
  intros Hok.
  pose proof (message_after_display (Fulfilled res)) as Hm.
  rewrite (failed_of_not_ok res Hok) in *. split; [reflexivity|exact Hm].
Qed.

Lemma C10_http_error_witness :
  display_after (Fulfilled (Response_of 404 (Rejected (mkError "SyntaxError" "Unexpected token"))))
  = Failed "Failed to fetch message: HTTP error! status: 404"
  /\ message_after (Fulfilled (Response_of 404 (Rejected (mkError "SyntaxError" "Unexpected token"))))
     = VStr "Failed to fetch message: HTTP error! status: 404".
Proof.
  apply (C10_http_error_text
           (Response_of 404 (Rejected (mkError "SyntaxError" "Unexpected token")))).
  reflexivity.
Defined.

(** *** Before the request settles *)

(** C4: from the first render until the request settles (whatever else
    happens: the effect running, further renders) the Display State is
    [Pending]; the state holds the literal string "loading...", which is
    rendered like any other message text: the output is the same as that
    of a [Loaded] state whose text is "loading...". *)
Theorem C4_pending_until_settled (evs : list event) (c : instance) :
  run mount evs = Some c -> existsb is_settle evs = false ->
  display_state (hooks c) = Pending
  /\ message (hooks c) = VStr "loading..."
  /\ shown (message (hooks c)) = Some "loading..."
  /\ view c
     = Some (Elem "div"
               [Elem "h1" [Text "Full-stack Deploy Demo"];
                Elem "p" [Text "Message from backend: ";
                          Elem "strong" [Text "loading..."]]])
  /\ display_after (Fulfilled placeholder_response) = Loaded (VStr "loading...")
  /\ view c = App_render (message_after (Fulfilled placeholder_response)).
Proof.
  intros Hrun Hq. unfold view. rewrite (run_quiet _ _ _ Hrun Hq).
  repeat split.
Qed.

Lemma C4_pending_witness :
  display_state (hooks fetching) = Pending
  /\ message (hooks fetching) = VStr "loading..."
  /\ shown (message (hooks fetching)) = Some "loading..."
  /\ view fetching
     = Some (Elem "div"
               [Elem "h1" [Text "Full-stack Deploy Demo"];
                Elem "p" [Text "Message from backend: ";
                          Elem "strong" [Text "loading..."]]])
  /\ display_after (Fulfilled placeholder_response) = Loaded (VStr "loading...")
  /\ view fetching = App_render (message_after (Fulfilled placeholder_response)).
Proof.
  apply (C4_pending_until_settled [RunEffect; Rerender] fetching);
    reflexivity.
Defined.

(** *** The state machine as a whole *)

Lemma terminal_has_update w :
  is_terminal (display_state w) = true -> updates w <> [].
Proof. intros H Hu. unfold display_state in H. rewrite Hu in H. discriminate. Qed.

(** The three shapes of a mounted instance, closed under every event. *)
Lemma step_shapes c ev c' :
  (c = mount \/ c = fetching \/ exists o, c = settled_instance o) ->
  step c ev = Some c' ->
  c' = mount \/ c' = fetching \/ exists o, c' = settled_instance o.
Proof.
  intros [->|[->|[o ->]]] Hs; destruct ev as [| |o']; simpl in Hs;
    try discriminate; injection Hs as <-.
  - right; left; reflexivity.
  - left; reflexivity.
  - right; left; reflexivity.
  - right; right; exists o'; reflexivity.
  - right; right; exists o; reflexivity.
Qed.

Lemma run_shapes evs : forall c c',
  (c = mount \/ c = fetching \/ exists o, c = settled_instance o) ->
  run c evs = Some c' ->
  c' = mount \/ c' = fetching \/ exists o, c' = settled_instance o.
Proof.
  induction evs as [|ev evs IH]; intros c c' Hc Hrun; simpl in Hrun.
  - injection Hrun as <-. exact Hc.
  - destruct (step c ev) as [c1|] eqn:Hs; [|discriminate].
    eapply IH; [|exact Hrun]. eapply step_shapes; eassumption.
Qed.

Lemma terminal_after o : is_terminal (display_after o) = true.
Proof. rewrite display_after_update. destruct (outcome_update o); reflexivity. Qed.

(** C5: a mounted instance starts in [Pending]; the effect runs, once, and
    issues the one request; whatever that request settles with, the
    settlement happens and takes the instance from [Pending] to [Loaded] or
    [Failed], both of which occur; a reachable instance is the mounted one,
    the one waiting for the request, or a settled one; it has issued at
    most one request and called [setMessage] at most once; once in a
    terminal state no event changes the state, and neither the effect nor a
    settlement can happen again. *)
Theorem C5_one_fetch_one_terminal_state (c : instance) :
  reachable c ->
  (display_state (hooks mount) = Pending
   /\ step mount RunEffect = Some fetching
   /\ issued fetching = 1 /\ in_flight fetching = 1
   /\ display_state (hooks fetching) = Pending
   /\ (forall o,
         step fetching (Settle o) = Some (settled_instance o)
         /\ display_state (hooks (settled_instance o)) = display_after o
         /\ is_terminal (display_after o) = true
         /\ reachable (settled_instance o))
   /\ display_after (Fulfilled hello_response)
      = Loaded (VStr "Hello from chaicode server")
   /\ display_after (Rejected connection_refused)
      = Failed "Failed to fetch message: Failed to fetch")
  /\ (c = mount \/ c = fetching \/ exists o, c = settled_instance o)
  /\ (step c RunEffect = None <-> effect_ran c = true)
  /\ (effect_ran c = false -> step c RunEffect = Some fetching)
  /\ (forall o, (exists c', step c (Settle o) = Some c') <-> in_flight c = 1)
  /\ (effect_ran c = true -> display_state (hooks c) = Pending ->
      forall o, step c (Settle o) = Some (settled_instance o))
  /\ issued c <= 1
  /\ (effect_ran c = true -> issued c = 1)
  /\ length (updates (hooks c)) <= 1
  /\ (forall ev c', step c ev = Some c' -> issued c' <= 1)
  /\ (forall ev c',
        step c ev = Some c' ->
        is_terminal (display_state (hooks c)) = true ->
        hooks c' = hooks c /\ display_state (hooks c') = display_state (hooks c))
  /\ (forall o c',
        step c (Settle o) = Some c' ->
        display_state (hooks c) = Pending
        /\ display_state (hooks c') = display_after o
        /\ is_terminal (display_state (hooks c')) = true
        /\ forall o', step c' (Settle o') = None).
Proof.
  intros Hreach. pose proof (reachable_inv c Hreach) as Hinv.
  assert (Hshape : c = mount \/ c = fetching \/ exists o, c = settled_instance o).
  { destruct Hreach as [evs Hrun].
    apply (run_shapes evs mount c); [left; reflexivity|exact Hrun]. }
  split.
  { split; [reflexivity|]. split; [reflexivity|]. split; [reflexivity|].
    split; [reflexivity|]. split; [reflexivity|].
    split; [|split; reflexivity].
    intros o. split; [reflexivity|]. split; [reflexivity|].
    split; [apply terminal_after|].
    exists [RunEffect; Settle o]. reflexivity. }
  split; [exact Hshape|].
  split.
  { simpl. destruct (effect_ran c); split; congruence. }
  split.
  { intros He. destruct Hshape as [->|[->|[o ->]]];
      [reflexivity|discriminate He|discriminate He]. }
  split.
  { intros o. simpl.
    destruct Hinv as [H|[H|H]]; destruct H as (_ & _ & -> & _);
      split; try (intros [c' [=]]); try discriminate; try reflexivity.
    intros _. eexists. reflexivity. }
  split.
  { intros He Hp o. destruct Hshape as [->|[->|[o' ->]]];
      [discriminate He|reflexivity|].
    change (display_state (hooks (settled_instance o')))
      with (display_after o') in Hp.
    pose proof (terminal_after o') as Ht. rewrite Hp in Ht. discriminate. }
  split; [destruct Hinv as [H|[H|H]]; destruct H as (_ & -> & _); lia|].
  split; [destruct Hinv as [H|[H|H]]; destruct H as (He & Hi & _); congruence|].
  split.
  { destruct Hinv as [H|[H|H]]; destruct H as (_ & _ & _ & Hu);
      try (rewrite Hu; simpl; lia).
    destruct Hu as [u ->]. simpl; lia. }
  split.
  { intros ev c' Hs. pose proof (step_lifecycle_inv c ev c' Hinv Hs) as Hinv'.
    destruct Hinv' as [H|[H|H]]; destruct H as (_ & -> & _); lia. }
  split.
  { intros ev c' Hs Ht. apply terminal_has_update in Ht.
    destruct Hinv as [H|[H|H]]; destruct H as (He & _ & Hf & Hu);
      try contradiction.
    assert (c' = c) as ->; [|split; reflexivity].
    destruct ev; simpl in Hs.
    - rewrite He in Hs. discriminate.
    - congruence.
    - rewrite Hf in Hs. discriminate. }
  intros o c' Hs. simpl in Hs.
  destruct (in_flight c) as [|n] eqn:Hf; [discriminate|].
  injection Hs as <-.
  destruct Hinv as [H|[H|H]]; destruct H as (He & _ & Hf' & Hu);
    try congruence.
  assert (n = 0) as -> by congruence.
  assert (Hd : display_state (snd (fetch_chain o (hooks c))) = display_after o).
  { rewrite display_after_update.
    destruct (fetch_chain_updates o (hooks c)) as [Hu' _].
    apply (display_state_snoc _ _ _ Hu'). }
  split; [unfold display_state; rewrite Hu; reflexivity|].
  simpl. split; [exact Hd|]. split; [|reflexivity].
  rewrite Hd, display_after_update. destruct (outcome_update o); reflexivity.
Qed.

Lemma C5_one_fetch_witness :
  step mount RunEffect = Some fetching
  /\ step fetching (Settle (Fulfilled hello_response)) = Some loaded_instance
  /\ issued loaded_instance <= 1
  /\ display_state (hooks loaded_instance)
     = Loaded (VStr "Hello from chaicode server")
  /\ step loaded_instance (Settle (Rejected connection_refused)) = None
  /\ step loaded_instance RunEffect = None.
Proof.
  pose proof (C5_one_fetch_one_terminal_state loaded_instance
                (ex_intro _ [RunEffect; Settle (Fulfilled hello_response); Rerender]
                          eq_refl)) as H.
  destruct H as ((_ & Hrun & _ & _ & _ & Hsettle & _) & _ & Heff & _ & _ & _
                 & Hissued & _).
  split; [exact Hrun|].
  split; [exact (proj1 (Hsettle (Fulfilled hello_response)))|].
  split; [exact Hissued|].
  split; [reflexivity|]. split; [reflexivity|].
  apply Heff. reflexivity.
Defined.

End ClientFacts.

(** ** Properties of the edge routers *)

Module RouterFacts.
Import HTTP Headers Router.

Lemma append_cons c s t : String c s +:+ t = String c (s +:+ t).
Proof. reflexivity. Qed.

Lemma strip_prefix_Some p : forall s r,
  strip_prefix p s = Some r -> s = p +:+ r.
Proof.
  induction p as [|a p IH]; intros s r H; simpl in H.
  - injection H as ->. reflexivity.
  - destruct s as [|b s]; [discriminate|].
    destruct (Ascii.eqb_spec a b) as [->|]; [|discriminate].
    rewrite append_cons. f_equal. apply IH, H.
Qed.

Lemma strip_prefix_app p r : strip_prefix p (p +:+ r) = Some r.
Proof.
  induction p as [|a p IH]; [reflexivity|].
  rewrite append_cons. simpl. rewrite Ascii.eqb_refl. exact IH.
Qed.

Lemma starts_with_split p s :
  starts_with p s = true -> exists r, strip_prefix p s = Some r /\ s = p +:+ r.
Proof.
  unfold starts_with. destruct (strip_prefix p s) as [r|] eqn:H; [|discriminate].
  intros _. exists r. split; [reflexivity|]. apply strip_prefix_Some, H.
Qed.

(** A path under [/api/] is not [/api] without the slash. *)
Lemma no_auto_redirect_under_api uri :
  starts_with "/api/" uri = true ->
  auto_redirect (locations nginx_conf) uri = false.
Proof.
  intros H. destruct (starts_with_split _ _ H) as (r & _ & ->).
  unfold auto_redirect; simpl.
  change ("" +:+ r) with r. destruct r; reflexivity.
Qed.

Lemma no_auto_redirect_outside uri :
  uri <> "/api" -> auto_redirect (locations nginx_conf) uri = false.
Proof.
  intros Hne. unfold auto_redirect, nginx_conf.
  cbn [locations existsb loc_directive loc_prefix is_proxy_pass andb orb].
  rewrite orb_false_r.
  apply String.eqb_neq. intros Heq. apply Hne.
  destruct uri as [|c1 [|c2 [|c3 [|c4 [|c5 r]]]]];
    rewrite ?append_cons in Heq; try discriminate.
  - injection Heq as <- <- <- <-. reflexivity.
  - injection Heq as _ _ _ _ _ Heq. destruct r; discriminate.
Qed.

Lemma select_api_location uri :
  starts_with "/api/" uri = true ->
  select_location (locations nginx_conf) uri None
  = Some (mkLocation "/api/"
            (proxy_pass "http://backend:4000" "/api/"
               [("host", Var_host); ("x-real-ip", Var_remote_addr);
                ("x-forwarded-for", Var_proxy_add_x_forwarded_for)])).
Proof.
  intros H. simpl. rewrite H. destruct (starts_with "/" uri); reflexivity.
Qed.

Lemma select_static_location uri :
  starts_with "/" uri = true -> starts_with "/api/" uri = false ->
  select_location (locations nginx_conf) uri None
  = Some (mkLocation "/" (try_files [UriFile; UriDir] "/index.html")).
Proof. intros H1 H2. simpl. rewrite H1, H2. reflexivity. Qed.

Lemma locate_eq conf conn fs req fuel uri :
  locate conf conn fs req fuel uri
  = if auto_redirect (locations conf) uri then Answer 301 (Some (uri +:+ "/"))
    else
      match select_location (locations conf) uri None with
      | None => Answer 404 None
      | Some loc =>
          match loc_directive loc with
          | proxy_pass target uri_part set_header =>
              match upstream_request conn (loc_prefix loc) uri_part set_header
                      {| method := method req; path := uri; query := query req;
                         headers := headers req; body := body req |} with
              | Some up => ToUpstream target up
              | None => Answer 500 None
              end
          | try_files tests fallback =>
              match find (passes fs uri) tests with
              | Some UriFile => SendFile uri
              | Some UriDir =>
                  if ends_with_slash uri then
                    if is_file fs (uri +:+ index conf) then
                      match fuel with
                      | O => Answer 500 None
                      | S n => locate conf conn fs req n (uri +:+ index conf)
                      end
                    else Answer 403 None
                  else Answer 301 (Some (uri +:+ "/"))
              | None =>
                  match fuel with
                  | O => Answer 500 None
                  | S n => locate conf conn fs req n fallback
                  end
              end
          end
      end.
Proof. destruct fuel; reflexivity. Qed.

Lemma nginx_route_api conn fs req :
  starts_with "/api/" (path req) = true ->
  nginx_route conn fs req = ToUpstream "http://backend:4000" (forwarded conn req).
Proof.
  intros H. unfold nginx_route. rewrite locate_eq.
  rewrite (no_auto_redirect_under_api _ H), (select_api_location _ H).
  cbn [loc_directive loc_prefix]. unfold upstream_request, forwarded.
  destruct req as [m p q hs b]. cbn [path method query headers body] in *.
  destruct (starts_with_split _ _ H) as (r & -> & ->). reflexivity.
Qed.

Lemma gzip_filter_facts conf reads req r :
  d_status (gzip_filter conf reads req r) = status r
  /\ decoded (d_body (gzip_filter conf reads req r)) = resp_body r
  /\ d_type (gzip_filter conf reads req r) = content_type r
  /\ (accepts_gzip reads req = false ->
      d_body (gzip_filter conf reads req r) = Identity (resp_body r)).
Proof.
  unfold gzip_filter. destruct (compressible conf reads req r) eqn:Hc.
  - split; [reflexivity|]. split; [reflexivity|]. split; [reflexivity|].
    intros Hg. unfold compressible in Hc. rewrite Hg, andb_false_r in Hc.
    discriminate Hc.
  - split; [reflexivity|]. split; [reflexivity|]. split; reflexivity.
Qed.

Lemma framed_facts m r :
  status (framed m r) = status r
  /\ resp_headers (framed m r) = resp_headers r
  /\ resp_body (framed m r) = (if bodiless m (status r) then "" else resp_body r).
Proof. unfold framed. destruct (bodiless m (status r)); repeat split. Qed.

Lemma get_or_head_admitted req :
  get_or_head (method req) = true -> body_fits req = true ->
  admitted req = true.
Proof.
  unfold admitted, get_or_head. intros H ->. rewrite andb_true_r.
  apply orb_true_iff in H as [H|H];
    apply String.eqb_eq in H; rewrite H; reflexivity.
Qed.

(** What the packaged router delivers of an answer of the upstream. *)
Lemma deliver_upstream reads conn fs api req :
  starts_with "/api/" (path req) = true ->
  admitted req = true ->
  resp_headers (api (forwarded conn req)) !! "x-accel-redirect" = None ->
  exists d,
    nginx_handle reads conn fs api req = Delivered d
    /\ d_status d = status (api (forwarded conn req))
    /\ d_type d = content_type (api (forwarded conn req))
    /\ decoded (d_body d)
       = resp_body (framed (method req) (api (forwarded conn req)))
    /\ (accepts_gzip reads req = false ->
        d_body d
        = Identity (resp_body (framed (method req) (api (forwarded conn req))))).
Proof.
  intros Hp Hm Hx. unfold nginx_handle. rewrite Hm. cbn [negb].
  rewrite (nginx_route_api conn fs req Hp). unfold proxied_reply. rewrite Hx.
  destruct (gzip_filter_facts nginx_conf reads req
              (framed (method req) (api (forwarded conn req))))
    as (H1 & H2 & H3 & H4).
  destruct (framed_facts (method req) (api (forwarded conn req)))
    as (F1 & F2 & _).
  eexists. split; [reflexivity|].
  split; [rewrite H1; exact F1|].
  split; [rewrite H3; unfold content_type; rewrite F2; reflexivity|].
  split; [exact H2|exact H4].
Qed.

(** What the packaged router delivers of a file. *)
Lemma deliver_file reads conn fs api req p mime content :
  get_or_head (method req) = true ->
  body_fits req = true ->
  is_plain req = true ->
  nginx_route conn fs req = SendFile p ->
  fs !! p = Some (File mime content) ->
  exists d,
    nginx_handle reads conn fs api req = Delivered d
    /\ d_status d = 200%N
    /\ d_type d = Some mime
    /\ decoded (d_body d)
       = (if String.eqb (method req) "HEAD" then "" else content)
    /\ (accepts_gzip reads req = false ->
        d_body d
        = Identity (if String.eqb (method req) "HEAD" then "" else content)).
Proof.
  intros Hm Hbf Hpl Hr Hf.
  unfold nginx_handle. rewrite (get_or_head_admitted req Hm Hbf). cbn [negb].
  rewrite Hr, Hm, Hf. unfold static_reply. rewrite Hpl.
  match goal with
  | |- context [gzip_filter ?c ?rd ?rq ?r] =>
      destruct (gzip_filter_facts c rd rq r) as (H1 & H2 & H3 & H4)
  end.
  eexists. split; [reflexivity|]. split; [exact H1|].
  split.
  { rewrite H3. unfold content_type. cbn [resp_headers].
    rewrite lookup_insert_ne by discriminate. apply lookup_singleton_eq. }
  split; [exact H2|exact H4].
Qed.

Lemma starts_with_api_slash uri :
  starts_with "/api/" uri = true -> starts_with "/api" uri = true.
Proof.
  intros H. destruct (starts_with_split _ _ H) as (r & _ & ->). reflexivity.
Qed.


Lemma not_hop_by_hop_kept (added hs : gmap string string) k v :
  k ∉ hop_by_hop -> hs !! k = Some v ->
  filter (fun kv : string * string => kv.1 ∉ hop_by_hop) (hs ∪ added) !! k
  = Some v.
Proof.
  intros Hk Hv. apply map_lookup_filter_Some. split; [|exact Hk].
  apply lookup_union_Some_l, Hv.
Qed.

(** What the development router does with a request that gets as far as
    its proxy rules and starts with the prefix of the one rule. *)
Lemma vite_handle_api front api req added :
  front req = Some added ->
  starts_with "/api" (path req) = true ->
  plain_target req = true ->
  vite_handle front api req
  = Proxied "http://localhost:4000"
      (mkRequest (method req) (path req) (query req)
                 (<["host" := "localhost:4000"]> (headers req)) (body req))
      (piped_back added
         (framed (method req)
            (api (mkRequest (method req) (path req) (query req)
                    (<["host" := "localhost:4000"]> (headers req))
                    (body req))))).
Proof.
  intros Hf H Hpl. unfold vite_handle, proxy_rule, vite_config. rewrite Hf.
  cbn [proxy find fst]. rewrite H, Hpl. reflexivity.
Qed.

Lemma piped_back_facts added m r :
  status (piped_back added (framed m r)) = status r
  /\ resp_body (piped_back added (framed m r)) = resp_body (framed m r)
  /\ (forall k v, k ∉ hop_by_hop -> resp_headers r !! k = Some v ->
        resp_headers (piped_back added (framed m r)) !! k = Some v).
Proof.
  destruct (framed_facts m r) as (F1 & F2 & _).
  unfold piped_back. cbn [status resp_body resp_headers].
  split; [exact F1|]. split; [reflexivity|].
  intros k v Hk Hv. rewrite F2. apply not_hop_by_hop_kept; assumption.
Qed.

(** *** Requests for the API *)




(** *** Requests for anything else *)

Lemma locate_entry_document conn fs req fuel mime content :
  fs !! "/index.html" = Some (File mime content) ->
  locate nginx_conf conn fs req fuel "/index.html" = SendFile "/index.html".
Proof.
  intros Hi. rewrite locate_eq.
  replace (auto_redirect (locations nginx_conf) "/index.html") with false
    by reflexivity.
  rewrite select_static_location by reflexivity.
  cbn [loc_directive find passes]. unfold is_file. rewrite Hi. reflexivity.
Qed.

Lemma under_api_false p :
  under_api p = false -> p <> "/api" /\ starts_with "/api/" p = false.
Proof.
  unfold under_api. intros H. apply orb_false_iff in H as [H1 H2].
  split; [apply String.eqb_neq, H1|exact H2].
Qed.

(** C7 (as stated) fails: the path of an existing directory without an
    index file is neither under the API prefix nor an existing file, and
    the packaged router answers 403, not the entry document; [/api]
    itself, which is not under [/api/], is answered by a redirect; and a
    [POST] request for a path that names nothing is not answered with the
    entry document either. *)
Lemma C7_counterexample_directory :
  starts_with "/api/" (path (plain_get "/assets/")) = false
  /\ is_file sample_docroot (path (plain_get "/assets/")) = false
  /\ is_file sample_docroot "/index.html" = true
  /\ starts_with "/api/" (path (plain_get "/api")) = false
  /\ is_file sample_docroot (path (plain_get "/api")) = false
  /\ starts_with "/api/" (path (plain_post "/dashboard/settings")) = false
  /\ is_file sample_docroot (path (plain_post "/dashboard/settings")) = false
  /\ forall reads api,
       nginx_handle reads caller sample_docroot api (plain_get "/assets/")
       = Special 403 None
       /\ nginx_handle reads caller sample_docroot api (plain_get "/api")
          = Special 301 (Some "/api/")
       /\ nginx_handle reads caller sample_docroot api
            (plain_post "/dashboard/settings") = OwnAnswer.
Proof.
  split; [reflexivity|]. split; [reflexivity|]. split; [reflexivity|].
  split; [reflexivity|]. split; [reflexivity|]. split; [reflexivity|].
  split; [reflexivity|]. intros reads api.
  split; [vm_compute; reflexivity|]. split; vm_compute; reflexivity.
Qed.

(** C7 (amended): when the entry document exists, a [GET] request without
    validators or a range (and without a body longer than the server
    accepts) whose path is neither [/api] nor under [/api/],
    and names neither an existing file nor an existing directory of the
    document root, is answered by the packaged router with the entry
    document [/index.html], status 200 and its media type, not with a
    404; the document travels as it is when the caller does not advertise
    gzip. *)
Theorem C7_fallback_to_entry_document
        (reads : string -> bool) (conn : connection) (fs : docroot)
        (api : request -> response) (req : request) (mime content : string) :
  method req = "GET" ->
  body_fits req = true ->
  is_plain req = true ->
  starts_with "/" (path req) = true ->
  under_api (path req) = false ->
  is_file fs (path req) = false ->
  is_dir fs (path req) = false ->
  fs !! "/index.html" = Some (File mime content) ->
  nginx_route conn fs req = SendFile "/index.html"
  /\ exists d,
       nginx_handle reads conn fs api req = Delivered d
       /\ d_status d = 200%N
       /\ decoded (d_body d) = content
       /\ d_type d = Some mime
       /\ (accepts_gzip reads req = false -> d_body d = Identity content).
Proof.
  intros Hm Hbf Hpl Hs Ha Hf Hd Hi. apply under_api_false in Ha as [Hne Hna].
  assert (Hr : nginx_route conn fs req = SendFile "/index.html").
  { unfold nginx_route, max_internal_redirects. rewrite locate_eq.
    rewrite (no_auto_redirect_outside _ Hne).
    rewrite (select_static_location _ Hs Hna).
    cbn [loc_directive find passes]. rewrite Hf, Hd.
    apply (locate_entry_document _ _ _ _ _ _ Hi). }
  split; [exact Hr|].
  assert (Hg : get_or_head (method req) = true) by (rewrite Hm; reflexivity).
  destruct (deliver_file reads conn fs api req _ mime content Hg Hbf Hpl Hr Hi)
    as (d & Hd1 & Hd2 & Hd3 & Hd4 & Hd5).
  rewrite Hm in Hd4, Hd5. exists d.
  split; [exact Hd1|]. split; [exact Hd2|]. split; [exact Hd4|].
  split; [exact Hd3|exact Hd5].
Qed.

Lemma C7_fallback_witness :
  nginx_route caller sample_docroot (browser_get "/dashboard/settings")
  = SendFile "/index.html"
  /\ exists d,
       nginx_handle no_other_value caller sample_docroot echo_api
         (browser_get "/dashboard/settings") = Delivered d
       /\ d_status d = 200%N
       /\ decoded (d_body d) = "<!doctype html><div id=root></div>"
       /\ d_type d = Some "text/html".
Proof.
  destruct (C7_fallback_to_entry_document no_other_value caller sample_docroot
              echo_api (browser_get "/dashboard/settings") "text/html"
              "<!doctype html><div id=root></div>"
              eq_refl eq_refl eq_refl eq_refl eq_refl eq_refl eq_refl eq_refl)
    as (Hr & d & H1 & H2 & H3 & H4 & _).
  split; [exact Hr|]. exists d.
  split; [exact H1|]. split; [exact H2|]. split; [exact H3|exact H4].
Defined.

End RouterFacts.

(** ** The application behind its middlewares *)

Module AppFacts.
Import JS HTTP Digest Server ServerFacts.

Lemma method_matches_route m :
  method_matches (app_get "/api/message" message_handler) m
  = (String.eqb "get" (to_lower m) || String.eqb (to_lower m) "head").
Proof. reflexivity. Qed.

Lemma path_matches_route p :
  path_matches (app_get "/api/message" message_handler) p = is_api_path p.
Proof. reflexivity. Qed.

Lemma app_stopped_or_route fw req :
  has_body req && body_refused fw req = false ->
  app fw req
  = if String.eqb (to_lower (method req)) "options" then Stopped Preflight
    else if method_matches (app_get "/api/message" message_handler) (method req)
            && is_api_path (path req)
         then Answered (finish fw req 200 payload_headers payload_text)
         else Stopped NotFound.
Proof.
  intros Hb. unfold app, express_json. rewrite Hb. unfold cors.
  destruct (String.eqb (to_lower (method req)) "options"); [reflexivity|].
  match goal with
  | |- _ = ?r => change (dispatch fw routes req at_handler = r)
  end.
  unfold routes, dispatch, route_matches. rewrite path_matches_route.
  destruct (method_matches _ (method req) && is_api_path (path req));
    [|reflexivity].
  cbn [route_handler app_get]. rewrite handler_at_handler. reflexivity.
Qed.

Lemma finish_keeps_marks fw req :
  res_headers (finish fw req 200 payload_headers payload_text)
    !! "access-control-allow-origin" = Some "*"
  /\ res_headers (finish fw req 200 payload_headers payload_text)
       !! "x-powered-by" = Some "Express".
Proof.
  unfold finish. destruct (req_fresh fw req 200 payload_headers);
    split; vm_compute; reflexivity.
Qed.

(** X9: the application answers through its route exactly the [GET] and
    [HEAD] requests for /api/message, in any letter case and with or
    without one slash at the end (the body parser permitting); an [OPTIONS]
    request is answered by [cors()] before the route.  Every answer of the
    route carries [Access-Control-Allow-Origin: *] and
    [X-Powered-By: Express]; a [HEAD] request gets no body, and when it is
    not fresh the status and the headers of the [GET] answer. *)
Theorem route_takes_get_and_head (fw : framework) (req : request) :
  has_body req && body_refused fw req = false ->
  ((exists res, app fw req = Answered res)
   <-> (String.eqb (to_lower (method req)) "get"
        || String.eqb (to_lower (method req)) "head") = true
       /\ is_api_path (path req) = true)
  /\ (to_lower (method req) = "options" -> app fw req = Stopped Preflight)
  /\ (forall res, app fw req = Answered res ->
        res_headers res !! "access-control-allow-origin" = Some "*"
        /\ res_headers res !! "x-powered-by" = Some "Express")
  /\ (method req = "HEAD" -> is_api_path (path req) = true ->
      exists res,
        app fw req = Answered res /\ sent res = Some ""
        /\ (payload_fresh fw req = false ->
            statusCode res = 200%N /\ res_headers res = payload_headers)).
Proof.
  intros Hb. rewrite (app_stopped_or_route fw req Hb), method_matches_route.
  rewrite (String.eqb_sym "get").
  destruct (String.eqb (to_lower (method req)) "options") eqn:Ho.
  - apply String.eqb_eq in Ho. rewrite Ho. cbn [String.eqb orb].
    split; [split; [intros [res [=]]|intros [[=] _]]|].
    split; [intros _; reflexivity|]. split; [discriminate|].
    intros Hh. rewrite Hh in Ho. vm_compute in Ho. discriminate.
  - split.
    { destruct (String.eqb (to_lower (method req)) "get"
                || String.eqb (to_lower (method req)) "head");
        destruct (is_api_path (path req)); cbn [andb];
        (split;
         [intros H; (split; reflexivity) || (destruct H; discriminate)
         |intros H; (eexists; reflexivity) || (destruct H; discriminate)]). }
    split; [intros Hh; apply String.eqb_neq in Ho; contradiction|].
    split.
    { destruct ((_ || _) && _); [|discriminate]. intros res [= <-].
      apply finish_keeps_marks. }
    intros Hh Hp. rewrite Hh, Hp. cbn [to_lower String.eqb orb andb].
    replace (String.eqb (to_lower "HEAD") "get" || String.eqb (to_lower "HEAD") "head")
      with true by reflexivity.
    cbn [andb]. eexists. split; [reflexivity|].
    assert (Hg : get_or_head (method req) = true) by (rewrite Hh; reflexivity).
    rewrite (finish_payload fw req Hg), Hh.
    destruct (payload_fresh fw req); split; try reflexivity; try discriminate.
    intros _. split; reflexivity.
Qed.

Lemma route_takes_head_witness :
  exists res,
    app plain_framework head_request = Answered res
    /\ sent res = Some ""
    /\ statusCode res = 200%N
    /\ res_headers res !! "content-length" = Some "40".
Proof.
  assert (Hb : has_body head_request
               && body_refused plain_framework head_request = false)
    by (vm_compute; reflexivity).
  destruct (route_takes_get_and_head plain_framework head_request Hb)
    as (_ & _ & _ & Hh).
  destruct (Hh eq_refl ltac:(vm_compute; reflexivity)) as (res & Ha & Hs & H200).
  destruct (H200 ltac:(vm_compute; reflexivity)) as [H1 H2].
  exists res. split; [exact Ha|]. split; [exact Hs|]. split; [exact H1|].
  rewrite H2. vm_compute. reflexivity.
Defined.

End AppFacts.

(** ** Further properties of the client *)

Module FetchFacts.
Import JS Client ClientFacts.

(** The world after the one request has settled. *)
Lemma settled_world_cases o :
  let w := snd (fetch_chain o (hooks fetching)) in
  (exists v, outcome_update o = ThenUpdate v /\ Client.console w = [])
  \/ (exists e, outcome_update o = CatchUpdate (failure_text e)
                /\ Client.console w = [("Error fetching message:", e)]).
Proof.
  destruct o as [[[] st [data|e]]|e]; simpl;
    try (right; eexists; split; reflexivity).
  unfold fetch_chain, outcome_update, on_data; simpl.
  destruct (get_property data "message") as [e|v]; simpl.
  - right. eexists; split; reflexivity.
  - left. eexists; split; reflexivity.
Qed.

(** X1: a successful response whose body cannot be parsed makes the
    Display State [Failed], with the prefix followed by the parser's
    message, whatever the status code. *)
Theorem unparseable_body_is_failed (st : N) (e : Error) :
  display_after (Fulfilled (mkResponse true st (Rejected e)))
  = Failed ("Failed to fetch message: " +:+ JS.message e)
  /\ shown (message_after (Fulfilled (mkResponse true st (Rejected e))))
     = Some ("Failed to fetch message: " +:+ JS.message e).
Proof. split; [reflexivity|]. apply shown_string. Qed.

(** X2: the console gets an entry exactly when the request fails: nothing
    is logged when the state becomes [Loaded]; when it becomes [Failed]
    there is one entry, labelled "Error fetching message:", and the text
    displayed is the prefix followed by the message of the error logged. *)
Theorem console_error_iff_failed (o : settled Response) :
  let w := snd (fetch_chain o (hooks fetching)) in
  (forall v, display_state w = Loaded v -> Client.console w = [])
  /\ (forall s, display_state w = Failed s ->
        exists e, Client.console w = [("Error fetching message:", e)]
                  /\ s = "Failed to fetch message: " +:+ JS.message e)
  /\ (Client.console w = [] <-> exists v, display_state w = Loaded v).
Proof.
  intros w. subst w. fold (display_after o). rewrite display_after_update.
  destruct (settled_world_cases o) as [(v & -> & Hc)|(e & -> & Hc)];
    cbv zeta in Hc; rewrite Hc.
  - split; [reflexivity|]. split; [discriminate|].
    split; [eexists; reflexivity|reflexivity].
  - split; [discriminate|]. split.
    + intros s [= <-]. exists e. split; reflexivity.
    + split; [discriminate|]. intros [v Hv]. discriminate.
Qed.

(** The text held in [message] is the one of the Display State. *)
Definition text_in_step (w : world) : Prop :=
  match display_state w with
  | Pending => Client.message w = VStr "loading..."
  | Loaded v => Client.message w = v
  | Failed s => Client.message w = VStr s
  end.

Lemma text_in_step_settle o w : text_in_step (snd (fetch_chain o w)).
Proof.
  destruct (fetch_chain_updates o w) as [Hu Hm]. unfold text_in_step.
  rewrite (display_state_snoc _ _ _ Hu), Hm.
  destruct (outcome_update o); reflexivity.
Qed.

Lemma text_in_step_run evs : forall c c',
  text_in_step (hooks c) -> run c evs = Some c' -> text_in_step (hooks c').
Proof.
  induction evs as [|ev evs IH]; intros c c' Hc Hrun; simpl in Hrun.
  - injection Hrun as <-. exact Hc.
  - destruct (step c ev) as [c1|] eqn:Hs; [|discriminate].
    apply (IH c1 c'); [|exact Hrun].
    destruct ev as [| |o]; simpl in Hs.
    + destruct (effect_ran c); [discriminate|]. injection Hs as <-. exact Hc.
    + injection Hs as <-. exact Hc.
    + destruct (in_flight c); [discriminate|]. injection Hs as <-.
      apply text_in_step_settle.
Qed.

(** X3: in every state a mounted instance can reach, the [message] that
    is rendered is the text of the Display State: the placeholder while
    [Pending], the body's value when [Loaded], the error text when
    [Failed]. *)
Theorem message_is_text_of_display_state (c : instance) :
  reachable c ->
  match display_state (hooks c) with
  | Pending => Client.message (hooks c) = VStr "loading..."
  | Loaded v => Client.message (hooks c) = v
  | Failed s => Client.message (hooks c) = VStr s
  end.
Proof.
  intros [evs Hrun]. apply (text_in_step_run evs mount c); [reflexivity|exact Hrun].
Qed.

Lemma message_is_text_witness :
  Client.message (hooks loaded_instance) = VStr "Hello from chaicode server".
Proof.
  exact (message_is_text_of_display_state loaded_instance
           (ex_intro _ [RunEffect; Settle (Fulfilled hello_response); Rerender]
                     eq_refl)).
Defined.

Lemma text_content_page s :
  App_render (VStr s)
  = Some (Elem "div"
            [Elem "h1" [Text "Full-stack Deploy Demo"];
             Elem "p" [Text "Message from backend: "; Elem "strong" [Text s]]]).
Proof. reflexivity. Qed.

(** X4: an error never breaks the page: in every reachable state that is
    not [Loaded] the component renders, with the heading, the label and
    the state's text (the placeholder or the error text) in the [strong]
    element. *)
Theorem pending_and_failed_always_render (c : instance) :
  reachable c ->
  (forall v, display_state (hooks c) <> Loaded v) ->
  exists s,
    view c
    = Some (Elem "div"
              [Elem "h1" [Text "Full-stack Deploy Demo"];
               Elem "p" [Text "Message from backend: "; Elem "strong" [Text s]]])
    /\ match display_state (hooks c) with
       | Pending => s = "loading..."
       | Failed t => s = t
       | Loaded _ => False
       end.
Proof.
  intros Hr Hn. pose proof (message_is_text_of_display_state c Hr) as Hm.
  unfold view. destruct (display_state (hooks c)) as [|v|t].
  - exists "loading...". rewrite Hm. split; reflexivity.
  - exfalso. apply (Hn v). reflexivity.
  - exists t. rewrite Hm. split; reflexivity.
Qed.

Lemma pending_and_failed_render_witness :
  exists s,
    view fetching
    = Some (Elem "div"
              [Elem "h1" [Text "Full-stack Deploy Demo"];
               Elem "p" [Text "Message from backend: "; Elem "strong" [Text s]]])
    /\ s = "loading...".
Proof.
  apply (pending_and_failed_always_render fetching
           (ex_intro _ [RunEffect] eq_refl)).
  discriminate.
Defined.

End FetchFacts.

(** ** What can and cannot be rendered *)

Module RenderFacts.
Import JS Client ClientFacts Shape.

Lemma all_or_none_None {A} (parts : list (option (list A))) :
  all_or_none parts = None <-> In None parts.
Proof.
  induction parts as [|p ps IH]; simpl.
  - split; [discriminate|tauto].
  - destruct p as [xs|].
    + destruct (all_or_none ps) as [ys|].
      * split; [discriminate|]. intros [H|H]; [discriminate|].
        apply IH in H. discriminate.
      * split; [intros _; right; apply IH; reflexivity|reflexivity].
    + split; [intros _; left; reflexivity|reflexivity].
Qed.

Lemma children_of_json_None : forall j,
  children_of_json j = None <-> contains_object j = true.
Proof.
  fix IH 1. intros [| b | n | s | items | props]; simpl;
    try (split; discriminate); [|split; reflexivity].
  rewrite all_or_none_None.
  induction items as [|x xs IHxs]; simpl.
  - split; [tauto|discriminate].
  - rewrite orb_true_iff, <- IHxs, <- (IH x). reflexivity.
Qed.

(** X5: the page fails to render in exactly one situation: the request
    succeeded, the body was parsed, and the value of its [message] field is
    an object or an array that holds one.  Strings, numbers, booleans,
    [null], a missing field and every error text are rendered. *)
Theorem render_refused_iff_object_message (o : settled Response) :
  App_render (message_after o) = None
  <-> exists res data v,
        o = Fulfilled res /\ ok res = true /\ json res = Fulfilled data
        /\ get_property data "message" = inr (Json v)
        /\ contains_object v = true.
Proof.
  rewrite message_after_update. split.
  - destruct o as [[[] st [data|e]]|e]; simpl; try discriminate.
    destruct (get_property data "message") as [e|[|v]] eqn:Hg; simpl;
      try discriminate.
    unfold App_render; simpl.
    destruct (children_of_json v) eqn:Hc; [discriminate|]. intros _.
    exists (mkResponse true st (Fulfilled data)), data, v.
    repeat split; try assumption. apply children_of_json_None, Hc.
  - intros (res & data & v & -> & Hok & Hj & Hg & Hobj). simpl.
    rewrite Hok, Hj, Hg. unfold App_render; simpl.
    apply children_of_json_None in Hobj. rewrite Hobj. reflexivity.
Qed.

End RenderFacts.

(** ** Properties of the versions given in the guide *)

Module GuideFacts.
Import JS Client ClientFacts.

(** X6: the first version of the component reaches the same Display
    State as the final one for every settlement of the request, except for
    a response with a non-success status: there its error text is fixed
    and does not tell the status code.  It never writes to the console. *)
Theorem first_version_differs_on_status_only (o : settled Response) :
  match o with
  | Fulfilled res =>
      if ok res then Guide.display_after o = Client.display_after o
      else Guide.display_after o
           = Failed "Failed to fetch message: Network response was not OK"
           /\ Client.display_after o
              = Failed ("Failed to fetch message: HTTP error! status: "
                        +:+ pretty (status res))
  | Rejected _ => Guide.display_after o = Client.display_after o
  end
  /\ Client.console (snd (Guide.fetch_chain o (hooks fetching))) = [].
Proof.
  destruct o as [[[] st [data|e]]|e]; try (split; [|reflexivity]; try split; reflexivity).
  unfold Guide.display_after, Client.display_after, Guide.fetch_chain,
    Client.fetch_chain, on_data; simpl.
  destruct (get_property data "message") as [e|v]; split; reflexivity.
Qed.

Lemma counter_chain_count o s :
  Guide.count (snd (Guide.counter_chain o s)) = Guide.count s.
Proof.
  destruct o as [[b st [data|e]]|e]; try reflexivity.
  unfold Guide.counter_chain, Guide.counter_on_data; simpl.
  destruct (get_property data "message"); reflexivity.
Qed.

(** X7: the version with the counter does not look at the status: a
    response with a parsed body shows the body's [message] value even when
    the status is not a success (where the final component shows an error
    text); and when the request or the parsing fails, [message] keeps its
    value and the error only goes to the console. *)
Theorem counter_version_ignores_status
        (b : bool) (st : N) (props : list (string * JS.json)) (m : JS.json)
        (e : Error) (s : Guide.state) :
  own_property props "message" = Some m ->
  let shown_data := Fulfilled (mkResponse b st (Fulfilled (JObj props))) in
  Guide.message (snd (Guide.counter_chain shown_data s)) = Json m
  /\ Guide.console (snd (Guide.counter_chain shown_data s)) = Guide.console s
  /\ (b = false -> exists t, Client.display_after shown_data = Failed t)
  /\ Guide.message (snd (Guide.counter_chain (Rejected e) s)) = Guide.message s
  /\ Guide.message
       (snd (Guide.counter_chain (Fulfilled (mkResponse b st (Rejected e))) s))
     = Guide.message s
  /\ Guide.console (snd (Guide.counter_chain (Rejected e) s))
     = (Guide.console s ++ [("Error fetching message:", e)])%list.
Proof.
  intros Hm shown_data. subst shown_data.
  unfold Guide.counter_chain, Guide.counter_on_data; simpl. rewrite Hm; simpl.
  repeat split. intros ->. eexists. apply failed_of_not_ok. reflexivity.
Qed.

Lemma counter_version_witness :
  Guide.message
    (snd (Guide.counter_chain
            (Fulfilled (mkResponse false 500 (Fulfilled Server.payload)))
            (Guide.counter_hooks Guide.counter_mount)))
  = VStr "Hello from chaicode server".
Proof.
  exact (proj1 (counter_version_ignores_status false 500
                  [("message", JStr Server.greeting)] (JStr Server.greeting)
                  connection_refused
                  (Guide.counter_hooks Guide.counter_mount) eq_refl)).
Defined.

Lemma plus_one_min n k :
  Guide.plus_one (N.min (n + k) Guide.max_exact)
  = N.min (n + (k + 1)) Guide.max_exact.
Proof.
  unfold Guide.plus_one, Guide.max_exact.
  destruct (N.ltb_spec (N.min (n + k) 9007199254740992) 9007199254740992); lia.
Qed.

Lemma counter_step_count c ev c' :
  Guide.counter_step c ev = Some c' ->
  Guide.count (Guide.counter_hooks c')
  = if Guide.is_click ev
    then Guide.plus_one (Guide.count (Guide.counter_hooks c))
    else Guide.count (Guide.counter_hooks c).
Proof.
  destruct ev as [| | |o]; simpl; intros H.
  - destruct (Guide.counter_effect_ran c); [discriminate|].
    injection H as <-. reflexivity.
  - injection H as <-. reflexivity.
  - injection H as <-. reflexivity.
  - destruct (Guide.counter_in_flight c); [discriminate|].
    injection H as <-. apply counter_chain_count.
Qed.

Lemma clicks_cons ev evs :
  Guide.clicks (ev :: evs)
  = if Guide.is_click ev then S (Guide.clicks evs) else Guide.clicks evs.
Proof. destruct ev; reflexivity. Qed.

Lemma counter_run_count evs : forall c c' n,
  Guide.count (Guide.counter_hooks c) = N.min n Guide.max_exact ->
  Guide.counter_run c evs = Some c' ->
  Guide.count (Guide.counter_hooks c')
  = N.min (n + N.of_nat (Guide.clicks evs)) Guide.max_exact.
Proof.
  induction evs as [|ev evs IH]; intros c c' n Hc Hrun; simpl in Hrun.
  - injection Hrun as <-. rewrite Hc. f_equal. unfold Guide.clicks; simpl. lia.
  - destruct (Guide.counter_step c ev) as [c1|] eqn:Hs; [|discriminate].
    pose proof (counter_step_count _ _ _ Hs) as Hc1. rewrite clicks_cons.
    destruct (Guide.is_click ev).
    + rewrite (IH c1 c' (n + 1)%N); [f_equal; lia| |exact Hrun].
      rewrite Hc1, Hc. replace n with (n + 0)%N at 1 by lia.
      rewrite plus_one_min. f_equal.
    + apply (IH c1 c' n); [congruence|exact Hrun].
Qed.

Lemma counter_step_issued c ev c' :
  Guide.counter_step c ev = Some c' ->
  (if Guide.counter_effect_ran c
   then Guide.counter_issued c = 1 else Guide.counter_issued c = 0) ->
  (if Guide.counter_effect_ran c'
   then Guide.counter_issued c' = 1 else Guide.counter_issued c' = 0).
Proof.
  destruct ev as [| | |o]; simpl; intros H Hi.
  - destruct (Guide.counter_effect_ran c); [discriminate|].
    injection H as <-. simpl. rewrite Hi. reflexivity.
  - injection H as <-. exact Hi.
  - injection H as <-. exact Hi.
  - destruct (Guide.counter_in_flight c); [discriminate|].
    injection H as <-. exact Hi.
Qed.

Lemma counter_run_issued evs : forall c c',
  (if Guide.counter_effect_ran c
   then Guide.counter_issued c = 1 else Guide.counter_issued c = 0) ->
  Guide.counter_run c evs = Some c' -> Guide.counter_issued c' <= 1.
Proof.
  induction evs as [|ev evs IH]; intros c c' Hi Hrun; simpl in Hrun.
  - injection Hrun as <-. destruct (Guide.counter_effect_ran c); lia.
  - destruct (Guide.counter_step c ev) as [c1|] eqn:Hs; [|discriminate].
    apply (IH c1 c'); [|exact Hrun]. eapply counter_step_issued; eassumption.
Qed.

Lemma counter_run_message evs : forall c c',
  Guide.counter_run c evs = Some c' -> existsb Guide.is_csettle evs = false ->
  Guide.message (Guide.counter_hooks c') = Guide.message (Guide.counter_hooks c).
Proof.
  induction evs as [|ev evs IH]; intros c c' Hrun Hq; simpl in *.
  - injection Hrun as <-. reflexivity.
  - destruct (Guide.counter_step c ev) as [c1|] eqn:Hs; [|discriminate].
    apply orb_false_iff in Hq as [Hq1 Hq2]. rewrite (IH _ _ Hrun Hq2).
    destruct ev; simpl in *; try discriminate.
    + destruct (Guide.counter_effect_ran c); [discriminate|].
      injection Hs as <-. reflexivity.
    + injection Hs as <-. reflexivity.
    + injection Hs as <-. reflexivity.
Qed.

(** X8: in the version with the counter, after any sequence of events
    [count] is the number of clicks (capped at 2^53, where adding one to a
    number no longer changes it); clicks never issue a request: there is at
    most one, whatever the number of clicks and renders. *)
Theorem counter_counts_clicks (evs : list Guide.counter_event)
        (c : Guide.counter_instance) :
  Guide.counter_run Guide.counter_mount evs = Some c ->
  Guide.count (Guide.counter_hooks c)
  = N.min (N.of_nat (Guide.clicks evs)) Guide.max_exact
  /\ Guide.counter_issued c <= 1
  /\ (existsb Guide.is_csettle evs = false ->
      Guide.message (Guide.counter_hooks c) = VStr "").
Proof.
  intros Hrun. split; [|split].
  - rewrite (counter_run_count evs Guide.counter_mount c 0 eq_refl Hrun).
    f_equal.
  - apply (counter_run_issued evs Guide.counter_mount c eq_refl Hrun).
  - intros Hq. rewrite (counter_run_message evs _ _ Hrun Hq). reflexivity.
Qed.

Lemma counter_counts_clicks_witness :
  exists c,
    Guide.counter_run Guide.counter_mount
      [Guide.CClick; Guide.CRunEffect; Guide.CClick; Guide.CRerender; Guide.CClick]
    = Some c
    /\ Guide.count (Guide.counter_hooks c) = 3%N.
Proof.
  eexists. split; [reflexivity|].
  exact (proj1 (counter_counts_clicks
                  [Guide.CClick; Guide.CRunEffect; Guide.CClick; Guide.CRerender;
                   Guide.CClick] _ eq_refl)).
Defined.

End GuideFacts.

(** ** Further properties of the packaged router *)

Module StaticFacts.
Import HTTP Router RouterFacts Reorder.

Lemma append_assoc a b c : (a +:+ b) +:+ c = a +:+ (b +:+ c).
Proof.
  induction a as [|x a IH]; [reflexivity|].
  rewrite !append_cons. f_equal. exact IH.
Qed.


Lemma starts_with_append p s t :
  starts_with p s = true -> starts_with p (s +:+ t) = true.
Proof.
  intros H. destruct (starts_with_split _ _ H) as (r & _ & ->).
  rewrite append_assoc. unfold starts_with. rewrite strip_prefix_app.
  reflexivity.
Qed.

Lemma nginx_route_static conn fs req :
  starts_with "/" (path req) = true -> under_api (path req) = false ->
  nginx_route conn fs req
  = match find (passes fs (path req)) [UriFile; UriDir] with
    | Some UriFile => SendFile (path req)
    | Some UriDir =>
        if ends_with_slash (path req) then
          if is_file fs (path req +:+ "index.html") then
            locate nginx_conf conn fs req 9 (path req +:+ "index.html")
          else Answer 403 None
        else Answer 301 (Some (path req +:+ "/"))
    | None => locate nginx_conf conn fs req 9 "/index.html"
    end.
Proof.
  intros Hs Ha. apply under_api_false in Ha as [Hne Hna].
  unfold nginx_route, max_internal_redirects. rewrite locate_eq.
  rewrite (no_auto_redirect_outside _ Hne).
  rewrite (select_static_location _ Hs Hna). reflexivity.
Qed.

(** X10: a [GET] or [HEAD] request without validators or a range (and
    without a body longer than the server accepts), for an existing file
    of the document root (outside the API paths), is
    answered with status 200 and the file's media type; by the file's bytes
    for [GET] and by no body for [HEAD]; the bytes travel as they are when
    the caller does not advertise gzip. *)
Theorem existing_file_is_served
        (reads : string -> bool) (conn : connection) (fs : docroot)
        (api : request -> response) (req : request) (mime content : string) :
  get_or_head (method req) = true ->
  body_fits req = true ->
  is_plain req = true ->
  starts_with "/" (path req) = true ->
  under_api (path req) = false ->
  fs !! path req = Some (File mime content) ->
  nginx_route conn fs req = SendFile (path req)
  /\ exists d,
       nginx_handle reads conn fs api req = Delivered d
       /\ d_status d = 200%N
       /\ d_type d = Some mime
       /\ decoded (d_body d)
          = (if String.eqb (method req) "HEAD" then "" else content)
       /\ (accepts_gzip reads req = false ->
           d_body d
           = Identity (if String.eqb (method req) "HEAD" then "" else content)).
Proof.
  intros Hm Hbf Hpl Hs Ha Hf.
  assert (Hr : nginx_route conn fs req = SendFile (path req)).
  { rewrite (nginx_route_static _ _ _ Hs Ha). cbn [find passes].
    unfold is_file. rewrite Hf. reflexivity. }
  split; [exact Hr|].
  apply (deliver_file reads conn fs api req _ mime content Hm Hbf Hpl Hr Hf).
Qed.

Lemma existing_file_witness :
  nginx_route caller sample_docroot (plain_get "/assets/index.js")
  = SendFile "/assets/index.js"
  /\ exists d,
       nginx_handle no_other_value caller sample_docroot echo_api
         (plain_get "/assets/index.js") = Delivered d
       /\ d_status d = 200%N
       /\ d_type d = Some "application/javascript"
       /\ d_body d = Identity "render()".
Proof.
  destruct (existing_file_is_served no_other_value caller sample_docroot
              echo_api (plain_get "/assets/index.js")
              "application/javascript" "render()"
              eq_refl eq_refl eq_refl eq_refl eq_refl eq_refl)
    as (Hr & d & H1 & H2 & H3 & _ & H5).
  split; [exact Hr|]. exists d.
  split; [exact H1|]. split; [exact H2|]. split; [exact H3|].
  apply H5. reflexivity.
Defined.





End StaticFacts.

(** ** Further properties of the two routers *)

Module ProxyFacts.
Import HTTP Router RouterFacts Reorder Headers StaticFacts.



Lemma select_swapped uri :
  select_location (locations nginx_conf_swapped) uri None
  = select_location (locations nginx_conf) uri None.
Proof.
  unfold nginx_conf_swapped, with_locations, nginx_conf.
  cbn [locations rev app select_location loc_prefix].
  destruct (starts_with "/api/" uri) eqn:Ha; destruct (starts_with "/" uri) eqn:Hs;
    try reflexivity.
Qed.

Lemma auto_redirect_swapped uri :
  auto_redirect (locations nginx_conf_swapped) uri
  = auto_redirect (locations nginx_conf) uri.
Proof.
  unfold auto_redirect, nginx_conf_swapped, with_locations, nginx_conf.
  cbn [locations rev app existsb loc_directive loc_prefix is_proxy_pass andb orb].
  rewrite !orb_false_r. reflexivity.
Qed.

Lemma locate_swapped conn fs req fuel : forall uri,
  locate nginx_conf_swapped conn fs req fuel uri
  = locate nginx_conf conn fs req fuel uri.
Proof.
  induction fuel as [|n IH]; intros uri.
  - rewrite !locate_eq, auto_redirect_swapped, select_swapped. reflexivity.
  - rewrite (locate_eq nginx_conf_swapped), (locate_eq nginx_conf).
    rewrite auto_redirect_swapped, select_swapped.
    destruct (auto_redirect (locations nginx_conf) uri); [reflexivity|].
    destruct (select_location (locations nginx_conf) uri None) as [loc|];
      [|reflexivity].
    destruct (loc_directive loc) as [tests fallback|t u hs]; [|reflexivity].
    destruct (find (passes fs uri) tests) as [[|]|]; try reflexivity.
    + change (index nginx_conf_swapped) with (index nginx_conf).
      rewrite IH. reflexivity.
    + apply IH.
Qed.

(** X13: the order of the two [location] blocks in [nginx.conf] does not
    matter: with [location /api/] written first, every request is routed
    as before.  The block written first does not shadow the other. *)
Theorem location_order_is_irrelevant
        (conn : connection) (fs : docroot) (req : request) :
  locate nginx_conf_swapped conn fs req max_internal_redirects (path req)
  = nginx_route conn fs req.
Proof. apply locate_swapped. Qed.

Lemma locate_file_or_upstream conn fs req fuel uri :
  starts_with "/" uri = true -> is_file fs uri = true ->
  match locate nginx_conf conn fs req fuel uri with
  | ToUpstream _ _ => True
  | SendFile p => is_file fs p = true
  | Answer code _ => code = 301%N
  end.
Proof.
  intros Hs Hf. rewrite locate_eq.
  destruct (auto_redirect (locations nginx_conf) uri); [reflexivity|].
  destruct (starts_with "/api/" uri) eqn:Ha.
  - rewrite (select_api_location _ Ha). cbn [loc_directive loc_prefix].
    unfold upstream_request. cbn [path].
    destruct (starts_with_split _ _ Ha) as (r & -> & _). exact I.
  - rewrite (select_static_location _ Hs Ha). cbn [loc_directive find passes].
    rewrite Hf. exact Hf.
Qed.

(** X14: when the entry document exists, the packaged router never
    answers a [GET] request with 404 or 500 by itself: the request is
    passed to the API service, answered with an existing file, redirected
    (301), or refused (403). *)
Theorem no_404_from_router
        (conn : connection) (fs : docroot) (req : request)
        (mime content : string) :
  method req = "GET" ->
  starts_with "/" (path req) = true ->
  fs !! "/index.html" = Some (File mime content) ->
  match nginx_route conn fs req with
  | ToUpstream _ _ => True
  | SendFile p => is_file fs p = true
  | Answer code _ => code = 301%N \/ code = 403%N
  end.
Proof.
  intros _ Hs Hi. unfold nginx_route, max_internal_redirects. rewrite locate_eq.
  destruct (auto_redirect (locations nginx_conf) (path req)); [left; reflexivity|].
  destruct (starts_with "/api/" (path req)) eqn:Ha.
  - rewrite (select_api_location _ Ha). cbn [loc_directive loc_prefix].
    unfold upstream_request. cbn [path].
    destruct (starts_with_split _ _ Ha) as (r & -> & _). exact I.
  - rewrite (select_static_location _ Hs Ha). cbn [loc_directive find passes].
    destruct (is_file fs (path req)) eqn:Hf; [exact Hf|].
    destruct (is_dir fs (path req)) eqn:Hd.
    + destruct (ends_with_slash (path req)); [|left; reflexivity].
      destruct (is_file fs (path req +:+ index nginx_conf)) eqn:Hx;
        [|right; reflexivity].
      pose proof (locate_file_or_upstream conn fs req 9
                    (path req +:+ index nginx_conf)
                    (starts_with_append _ _ _ Hs) Hx) as H.
      destruct (locate nginx_conf conn fs req 9 (path req +:+ index nginx_conf));
        [exact I|exact H|left; exact H].
    + rewrite (locate_entry_document _ _ _ _ _ _ Hi).
      unfold is_file. rewrite Hi. reflexivity.
Qed.

Lemma no_404_witness :
  nginx_route caller sample_docroot (browser_get "/no/such/page")
  = SendFile "/index.html"
  /\ is_file sample_docroot "/index.html" = true.
Proof.
  pose proof (no_404_from_router caller sample_docroot
                (browser_get "/no/such/page") "text/html"
                "<!doctype html><div id=root></div>" eq_refl eq_refl eq_refl)
    as H.
  split; [reflexivity|exact H].
Defined.









(** The routers pass on the headers that the service reads. *)
Lemma forwarded_keeps conn req k :
  k <> "host" -> k <> "x-real-ip" -> k <> "x-forwarded-for" ->
  headers (forwarded conn req) !! k = headers req !! k.
Proof.
  intros H1 H2 H3. unfold forwarded. cbn [headers].
  rewrite !lookup_insert_ne by congruence. reflexivity.
Qed.

Lemma service_behind_nginx fw own conn req :
  method req = "GET" -> path req = "/api/message" ->
  Server.has_body req = false ->
  api_service fw own (forwarded conn req)
  = if Server.payload_fresh fw req
    then mkResponse 304 Server.not_modified_headers ""
    else mkResponse 200 Server.payload_headers Server.payload_text.
Proof.
  intros Hm Hp Hb. unfold api_service.
  rewrite (ServerFacts.serve_message fw (forwarded conn req) Hm Hp).
  - rewrite (ServerFacts.payload_fresh_ext fw req (forwarded conn req));
      [reflexivity|..]; apply forwarded_keeps; discriminate.
  - rewrite <- Hb. apply ServerFacts.has_body_ext;
      apply forwarded_keeps; discriminate.
Qed.

Lemma service_behind_vite fw own req :
  method req = "GET" -> path req = "/api/message" ->
  Server.has_body req = false ->
  api_service fw own
    (mkRequest (method req) (path req) (query req)
               (<["host" := "localhost:4000"]> (headers req)) (body req))
  = if Server.payload_fresh fw req
    then mkResponse 304 Server.not_modified_headers ""
    else mkResponse 200 Server.payload_headers Server.payload_text.
Proof.
  intros Hm Hp Hb. unfold api_service.
  set (up := mkRequest (method req) (path req) (query req)
                       (<["host" := "localhost:4000"]> (headers req))
                       (body req)).
  rewrite (ServerFacts.serve_message fw up Hm Hp).
  - rewrite (ServerFacts.payload_fresh_ext fw req up);
      [reflexivity|..]; apply lookup_insert_ne; discriminate.
  - rewrite <- Hb. apply ServerFacts.has_body_ext;
      apply lookup_insert_ne; discriminate.
Qed.

(** X18: end to end, a [GET] for [/api/message] without a body, whatever
    its headers (and its query, when the proxy library leaves it as it
    is), is answered by the application through either router.  When the request is not fresh (in particular when it carries
    neither [If-None-Match] nor [If-Modified-Since]) the caller gets status
    200, the JSON content type and the payload's bytes: from the packaged
    router once decoded, from the development router (for a request that
    gets as far as its proxy rules) as they are, with the entity tag and
    [Access-Control-Allow-Origin: *].  When the request is fresh the caller
    gets status 304 and no body through both. *)
Theorem api_message_through_routers
        (fw : Server.framework) (own : request -> response)
        (reads : string -> bool) (front : dev_front)
        (conn : connection) (fs : docroot) (req : request) :
  method req = "GET" ->
  path req = "/api/message" ->
  Server.has_body req = false ->
  body_fits req = true ->
  (headers req !! "if-none-match" = None ->
   headers req !! "if-modified-since" = None ->
   Server.payload_fresh fw req = false)
  /\ (exists d,
        nginx_handle reads conn fs (api_service fw own) req = Delivered d
        /\ (Server.payload_fresh fw req = false ->
            d_status d = 200%N
            /\ d_type d = Some "application/json; charset=utf-8"
            /\ decoded (d_body d) = Server.payload_text)
        /\ (Server.payload_fresh fw req = true ->
            d_status d = 304%N /\ d_body d = Identity ""))
  /\ (plain_target req = true ->
      forall added, front req = Some added ->
      exists up r,
        vite_handle front (api_service fw own) req
        = Proxied "http://localhost:4000" up r
        /\ (Server.payload_fresh fw req = false ->
            status r = 200%N
            /\ resp_body r = Server.payload_text
            /\ resp_headers r !! "content-type"
               = Some "application/json; charset=utf-8"
            /\ resp_headers r !! "etag" = Some Server.payload_etag
            /\ resp_headers r !! "access-control-allow-origin" = Some "*")
        /\ (Server.payload_fresh fw req = true ->
            status r = 304%N /\ resp_body r = "")).
Proof.
  intros Hm Hp Hb Hbf.
  split.
  { intros H1 H2. unfold Server.payload_fresh, Server.fresh, Server.header_value.
    rewrite H1, H2. reflexivity. }
  split.
  - assert (Hpre : starts_with "/api/" (path req) = true)
      by (rewrite Hp; reflexivity).
    assert (Hrm : admitted req = true)
      by (apply get_or_head_admitted; [rewrite Hm; reflexivity|exact Hbf]).
    pose proof (service_behind_nginx fw own conn req Hm Hp Hb) as Hsvc.
    destruct (deliver_upstream reads conn fs (api_service fw own) req Hpre Hrm)
      as (d & Hd & Hs & Ht & Hdec & Hid).
    { rewrite Hsvc. destruct (Server.payload_fresh fw req);
        vm_compute; reflexivity. }
    exists d. split; [exact Hd|].
    rewrite Hsvc in Hs, Ht, Hdec. rewrite Hm in Hdec.
    split.
    + intros Hfr. rewrite Hfr in Hs, Ht, Hdec.
      split; [exact Hs|]. split; [rewrite Ht; vm_compute; reflexivity|].
      rewrite Hdec. reflexivity.
    + intros Hfr. rewrite Hfr in Hs, Hdec. split; [exact Hs|].
      destruct (d_body d) as [b|b] eqn:Hbody.
      * cbn [decoded] in Hdec. rewrite Hdec. reflexivity.
      * exfalso. revert Hbody. unfold nginx_handle in Hd.
        rewrite Hrm in Hd. cbn [negb] in Hd.
        rewrite (nginx_route_api conn fs req Hpre) in Hd.
        unfold proxied_reply in Hd. rewrite Hsvc, Hfr in Hd.
        replace (resp_headers (mkResponse 304 Server.not_modified_headers "")
                   !! "x-accel-redirect") with (@None string) in Hd
          by (vm_compute; reflexivity).
        injection Hd as <-. unfold gzip_filter, compressible.
        rewrite Hm. cbn [framed bodiless status].
        replace (bool_decide (304%N ∈ [200; 403; 404]%N)) with false
          by (vm_compute; reflexivity).
        rewrite !andb_false_r. cbn [andb]. discriminate.
  - assert (Hpre : starts_with "/api" (path req) = true)
      by (rewrite Hp; reflexivity).
    intros Hpt added Hfr. eexists _, _.
    split; [apply (vite_handle_api front (api_service fw own) req added Hfr
                     Hpre Hpt)|].
    rewrite (service_behind_vite fw own req Hm Hp Hb), Hm.
    destruct (Server.payload_fresh fw req);
      match goal with
      | |- context [piped_back added (framed ?m ?r)] =>
          destruct (piped_back_facts added m r) as (P1 & P2 & P3)
      end; rewrite P1, P2.
    + split; [discriminate|]. intros _. split; reflexivity.
    + split; [|discriminate]. intros _.
      split; [reflexivity|]. split; [reflexivity|].
      split; [|split]; apply P3;
        try (apply (bool_decide_unpack _); vm_compute; exact I);
        vm_compute; reflexivity.
Qed.

Lemma api_message_witness :
  (exists d,
      nginx_handle no_other_value caller sample_docroot
        (api_service Server.plain_framework echo_api)
        (plain_get "/api/message") = Delivered d
      /\ d_status d = 200%N
      /\ decoded (d_body d) = Server.payload_text)
  /\ (exists up r,
        vite_handle open_front (api_service Server.plain_framework echo_api)
          (plain_get "/api/message")
        = Proxied "http://localhost:4000" up r
        /\ status r = 200%N
        /\ resp_body r = Server.payload_text).
Proof.
  destruct (api_message_through_routers Server.plain_framework echo_api
              no_other_value open_front caller sample_docroot
              (plain_get "/api/message") eq_refl eq_refl eq_refl eq_refl)
    as (Hfresh & (d & Hd & H200 & _) & Hv).
  pose proof (Hfresh eq_refl eq_refl) as Hf.
  split.
  - destruct (H200 Hf) as (Hs & _ & Hb). exists d.
    split; [exact Hd|]. split; [exact Hs|exact Hb].
  - destruct (Hv eq_refl _ eq_refl) as (up & r & Hh & Hr200 & _).
    destruct (Hr200 Hf) as (Hs & Hb & _). exists up, r.
    split; [exact Hh|]. split; [exact Hs|exact Hb].
Defined.

End ProxyFacts.
